(** * Design-Patterns: Builder, Factory Method and Abstract Factory demos

    A shallow embedding of [main.cpp].  Objects that the program reaches
    through pointers (pizzas, builders, documents, shapes) live in typed
    stores indexed by addresses; objects that are only ever used under
    their own name ([Cook], [Application]) are passed by value, and a
    factory, which has no data members, is its dynamic class.  Operations
    are written in a state-and-error monad over the
    program state; an operation that has no defined behaviour in C++
    (null or dangling dereference, write outside an array, read of an
    indeterminate value) returns [UB]. *)

From Stdlib Require Import Ascii.
From stdpp Require Import gmap strings list pretty.

Open Scope Z_scope.

(** ** Results and machine integers *)

Inductive result (A : Type) : Type :=
| Ok (a : A)
| UB.
Arguments Ok {A} a.
Arguments UB {A}.

(** [int] is 32 bits wide.  An increment that leaves the range is taken
    modulo 2^32 and read back as a signed value, as two's-complement
    machines compute it (the C++ standard leaves it undefined). *)
Definition INT_MAX : Z := 2147483647.
Definition INT_MIN : Z := -2147483648.

Definition wrap32 (z : Z) : Z := (z + 2 ^ 31) mod 2 ^ 32 - 2 ^ 31.

Definition in_int (z : Z) : Prop := INT_MIN <= z <= INT_MAX.

(** ** C strings and [char] arrays *)

Definition NUL : ascii := Ascii.zero.
Definition endl : string := String (Ascii.ascii_of_nat 10) EmptyString.

(** A [char*] argument is modelled by the characters it points to; a
    well-formed C string contains no terminator before its end. *)
Fixpoint is_cstring (s : string) : bool :=
  match s with
  | EmptyString => true
  | String c s' => negb (Ascii.eqb c NUL) && is_cstring s'
  end.

(** A [char] array whose cells may still be indeterminate. *)
Definition char_array : Type := list (option ascii).

(** [strcpy(dst, src)]: copies up to and including the terminator, with no
    knowledge of the size of [dst]. *)
Fixpoint strcpy (dst : char_array) (src : string) : result char_array :=
  match dst, src with
  | [], _ => UB
  | _ :: dst', EmptyString => Ok (Some NUL :: dst')
  | _ :: dst', String c src' =>
      if Ascii.eqb c NUL then Ok (Some NUL :: dst')
      else match strcpy dst' src' with
           | Ok r => Ok (Some c :: r)
           | UB => UB
           end
  end.

(** The C string held in a [char] array, as [cout << p] reads it through a [char] pointer. *)
Fixpoint read_cstr (buf : char_array) : result string :=
  match buf with
  | [] => UB
  | None :: _ => UB
  | Some c :: buf' =>
      if Ascii.eqb c NUL then Ok EmptyString
      else match read_cstr buf' with
           | Ok s => Ok (String c s)
           | UB => UB
           end
  end.

(** ** Objects *)

Definition loc : Type := positive.

(** "Product" *)
Record Pizza := mkPizza {
  m_dough : string;
  m_sauce : string;
  m_topping : string
}.

(** Dynamic type of a [PizzaBuilder] object. *)
Inductive BuilderClass := HawaiianPizzaBuilder | SpicyPizzaBuilder.

(** "Abstract Builder": [m_pizza] is the [unique_ptr<Pizza>]; [None] is the
    null pointer. *)
Record PizzaBuilder := mkPizzaBuilder {
  builder_class : BuilderClass;
  m_pizza : option loc
}.

(** [m_pizzaBuilder] is not initialised by [Cook]'s implicit constructor;
    [None] stands for the indeterminate pointer. *)
Record Cook := mkCook {
  m_pizzaBuilder : option loc
}.

Inductive DocumentClass := MyDocument.

Definition NAME_SIZE : nat := 20.

Record Document := mkDocument {
  document_class : DocumentClass;
  name : char_array
}.

Inductive ApplicationClass := MyApplication.

Definition DOCS_SIZE : Z := 10.

(** [_docs] is an array of 10 pointers that the constructor leaves
    indeterminate ([None]). *)
Record Application := mkApplication {
  application_class : ApplicationClass;
  _index : Z;
  _docs : list (option loc)
}.

Inductive ShapeClass := Circle | Square | Ellipse | Rectangle.

Record Shape := mkShape {
  shape_class : ShapeClass;
  id_ : Z
}.

Inductive Factory := SimpleShapeFactory | RobustShapeFactory.

(** ** Program state *)

(** Ghost events: every entry into a member function of [PizzaBuilder],
    of [Document] and into the [CreateDocument] hook, and every write into
    [_docs].  The program never reads them; they are what statements about
    call order are made of. *)
Inductive Event :=
| Call_getPizza (this : loc)
| Call_createNewPizzaProduct (this : loc)
| Call_buildDough (this : loc)
| Call_buildSauce (this : loc)
| Call_buildTopping (this : loc)
| Call_CreateDocument (fn : string)
| Write_docs (i : Z) (p : loc)
| Call_Open (this : loc)
| Call_Close (this : loc)
| Call_GetName (this : loc).

Record World := mkWorld {
  stdout : string;
  trace : list Event;
  pizzas : gmap loc Pizza;
  builders : gmap loc PizzaBuilder;
  documents : gmap loc Document;
  shapes : gmap loc Shape;
  total_ : Z
}.

(** [int Shape::total_ = 0;] and nothing allocated. *)
Definition initial_world : World :=
  {| stdout := EmptyString; trace := []; pizzas := ∅; builders := ∅;
     documents := ∅; shapes := ∅; total_ := 0 |}.

Definition live (w : World) : gset loc :=
  dom (pizzas w) ∪ dom (builders w) ∪ dom (documents w) ∪ dom (shapes w).

Definition set_stdout (f : string -> string) (w : World) : World :=
  {| stdout := f (stdout w); trace := trace w; pizzas := pizzas w;
     builders := builders w; documents := documents w; shapes := shapes w;
     total_ := total_ w |}.
Definition set_trace (f : list Event -> list Event) (w : World) : World :=
  {| stdout := stdout w; trace := f (trace w); pizzas := pizzas w;
     builders := builders w; documents := documents w; shapes := shapes w;
     total_ := total_ w |}.
Definition set_pizzas (f : gmap loc Pizza -> gmap loc Pizza) (w : World) : World :=
  {| stdout := stdout w; trace := trace w; pizzas := f (pizzas w);
     builders := builders w; documents := documents w; shapes := shapes w;
     total_ := total_ w |}.
Definition set_builders (f : gmap loc PizzaBuilder -> gmap loc PizzaBuilder)
    (w : World) : World :=
  {| stdout := stdout w; trace := trace w; pizzas := pizzas w;
     builders := f (builders w); documents := documents w; shapes := shapes w;
     total_ := total_ w |}.
Definition set_documents (f : gmap loc Document -> gmap loc Document)
    (w : World) : World :=
  {| stdout := stdout w; trace := trace w; pizzas := pizzas w;
     builders := builders w; documents := f (documents w); shapes := shapes w;
     total_ := total_ w |}.
Definition set_shapes (f : gmap loc Shape -> gmap loc Shape) (w : World) : World :=
  {| stdout := stdout w; trace := trace w; pizzas := pizzas w;
     builders := builders w; documents := documents w; shapes := f (shapes w);
     total_ := total_ w |}.
Definition set_total_ (f : Z -> Z) (w : World) : World :=
  {| stdout := stdout w; trace := trace w; pizzas := pizzas w;
     builders := builders w; documents := documents w; shapes := shapes w;
     total_ := f (total_ w) |}.

(** ** The monad *)

Definition M (A : Type) : Type := World -> result (A * World).

Definition ret {A} (a : A) : M A := fun w => Ok (a, w).

Definition bind {A B} (m : M A) (k : A -> M B) : M B :=
  fun w => match m w with
           | Ok (a, w') => k a w'
           | UB => UB
           end.

Notation "x <- m ;; k" := (bind m (fun x => k))
  (at level 100, m at next level, right associativity).
Notation "m ;; k" := (bind m (fun _ => k))
  (at level 100, right associativity).

Definition undefined {A} : M A := fun _ => UB.

Definition lift {A} (r : result A) : M A :=
  fun w => match r with Ok a => Ok (a, w) | UB => UB end.

Definition gets {A} (f : World -> A) : M A := fun w => Ok (f w, w).
Definition modify (f : World -> World) : M unit := fun w => Ok (tt, f w).

(** Dereference of a pointer that may be null or indeterminate. *)
Definition deref {A} (p : option A) : M A :=
  match p with Some a => ret a | None => undefined end.

(** [cout << s] *)
Definition print (s : string) : M unit :=
  modify (set_stdout (fun out => out +:+ s)).

Definition log (e : Event) : M unit :=
  modify (set_trace (fun t => t ++ [e])).

Fixpoint for_each {A} (l : list A) (body : A -> M unit) : M unit :=
  match l with
  | [] => ret tt
  | x :: l' => body x ;; for_each l' body
  end.

(** ** Allocation *)

(** [new] returns the address of storage that no live object occupies;
    which address is up to the implementation. *)
Class Allocator := {
  alloc : gset loc -> loc;
  alloc_fresh : forall X : gset loc, alloc X ∉ X
}.

(** One concrete allocator, for running the program. *)
#[global, refine] Instance fresh_allocator : Allocator | 100 :=
  {| alloc := fun X => fresh X |}.
Proof. intros X. apply is_fresh. Defined.

Section Program.
Context `{!Allocator}.

(** ** 1. Builder *)

(** *** [Pizza] *)

Definition Pizza_load (this : loc) : M Pizza :=
  fun w => match pizzas w !! this with
           | Some p => Ok (p, w)
           | None => UB
           end.

Definition Pizza_store (this : loc) (p : Pizza) : M unit :=
  modify (set_pizzas <[this := p]>).

Definition setDough (this : loc) (dough : string) : M unit :=
  p <- Pizza_load this ;;
  Pizza_store this
    {| m_dough := dough; m_sauce := m_sauce p; m_topping := m_topping p |}.

Definition setSauce (this : loc) (sauce : string) : M unit :=
  p <- Pizza_load this ;;
  Pizza_store this
    {| m_dough := m_dough p; m_sauce := sauce; m_topping := m_topping p |}.

Definition setTopping (this : loc) (topping : string) : M unit :=
  p <- Pizza_load this ;;
  Pizza_store this
    {| m_dough := m_dough p; m_sauce := m_sauce p; m_topping := topping |}.

(** [Pizza::open] *)
Definition open (this : loc) : M unit :=
  p <- Pizza_load this ;;
  print ("Pizza with " +:+ m_dough p +:+ " dough, " +:+ m_sauce p
         +:+ " sauce and " +:+ m_topping p +:+ " topping. Mmm." +:+ endl).

(** [make_unique<Pizza>()]: a new object whose three strings are empty. *)
Definition make_unique_Pizza : M loc :=
  a <- gets (fun w => alloc (live w)) ;;
  Pizza_store a
    {| m_dough := EmptyString; m_sauce := EmptyString;
       m_topping := EmptyString |} ;;
  ret a.

(** [delete] of a pizza; deleting what is not a live pizza is undefined. *)
Definition delete_Pizza (a : loc) : M unit :=
  _ <- Pizza_load a ;;
  modify (set_pizzas (delete a)).

(** *** [PizzaBuilder] and its two concrete classes *)

Definition PizzaBuilder_load (this : loc) : M PizzaBuilder :=
  fun w => match builders w !! this with
           | Some b => Ok (b, w)
           | None => UB
           end.

Definition PizzaBuilder_store (this : loc) (b : PizzaBuilder) : M unit :=
  modify (set_builders <[this := b]>).

(** A builder object coming into existence (a local variable of [main]);
    its [unique_ptr] starts out null. *)
Definition PizzaBuilder_ctor (c : BuilderClass) : M loc :=
  a <- gets (fun w => alloc (live w)) ;;
  PizzaBuilder_store a {| builder_class := c; m_pizza := None |} ;;
  ret a.

Definition getPizza (this : loc) : M (option loc) :=
  log (Call_getPizza this) ;;
  b <- PizzaBuilder_load this ;;
  ret (m_pizza b).

(** [m_pizza = make_unique<Pizza>();] the new pizza is made first, then the
    assignment installs it and destroys the pizza held before. *)
Definition createNewPizzaProduct (this : loc) : M unit :=
  log (Call_createNewPizzaProduct this) ;;
  a <- make_unique_Pizza ;;
  b <- PizzaBuilder_load this ;;
  PizzaBuilder_store this
    {| builder_class := builder_class b; m_pizza := Some a |} ;;
  match m_pizza b with
  | Some old => delete_Pizza old
  | None => ret tt
  end.

(** [m_pizza->f(...)] *)
Definition on_m_pizza (this : loc) (f : loc -> M unit) : M unit :=
  b <- PizzaBuilder_load this ;;
  a <- deref (m_pizza b) ;;
  f a.

Definition HawaiianPizzaBuilder_buildDough (this : loc) : M unit :=
  on_m_pizza this (fun p => setDough p "cross").
Definition HawaiianPizzaBuilder_buildSauce (this : loc) : M unit :=
  on_m_pizza this (fun p => setSauce p "mild").
Definition HawaiianPizzaBuilder_buildTopping (this : loc) : M unit :=
  on_m_pizza this (fun p => setTopping p "ham+pineapple").

Definition SpicyPizzaBuilder_buildDough (this : loc) : M unit :=
  on_m_pizza this (fun p => setDough p "pan baked").
Definition SpicyPizzaBuilder_buildSauce (this : loc) : M unit :=
  on_m_pizza this (fun p => setSauce p "hot").
Definition SpicyPizzaBuilder_buildTopping (this : loc) : M unit :=
  on_m_pizza this (fun p => setTopping p "pepperoni+salami").

(** Virtual calls: the override is chosen by the dynamic class of [this]. *)
Definition buildDough (this : loc) : M unit :=
  log (Call_buildDough this) ;;
  b <- PizzaBuilder_load this ;;
  match builder_class b with
  | HawaiianPizzaBuilder => HawaiianPizzaBuilder_buildDough this
  | SpicyPizzaBuilder => SpicyPizzaBuilder_buildDough this
  end.

Definition buildSauce (this : loc) : M unit :=
  log (Call_buildSauce this) ;;
  b <- PizzaBuilder_load this ;;
  match builder_class b with
  | HawaiianPizzaBuilder => HawaiianPizzaBuilder_buildSauce this
  | SpicyPizzaBuilder => SpicyPizzaBuilder_buildSauce this
  end.

Definition buildTopping (this : loc) : M unit :=
  log (Call_buildTopping this) ;;
  b <- PizzaBuilder_load this ;;
  match builder_class b with
  | HawaiianPizzaBuilder => HawaiianPizzaBuilder_buildTopping this
  | SpicyPizzaBuilder => SpicyPizzaBuilder_buildTopping this
  end.

(** *** [Cook] *)

Definition openPizza (this : Cook) : M unit :=
  pb <- deref (m_pizzaBuilder this) ;;
  p <- getPizza pb ;;
  a <- deref p ;;
  open a.

Definition makePizza (this : Cook) (pb : loc) : M Cook :=
  let this := {| m_pizzaBuilder := Some pb |} in
  b <- deref (m_pizzaBuilder this) ;;
  createNewPizzaProduct b ;;
  b <- deref (m_pizzaBuilder this) ;;
  buildDough b ;;
  b <- deref (m_pizzaBuilder this) ;;
  buildSauce b ;;
  b <- deref (m_pizzaBuilder this) ;;
  buildTopping b ;;
  ret this.

(** ** 2. Factory Method *)

(** *** [Document] and [MyDocument] *)

Definition Document_load (this : loc) : M Document :=
  fun w => match documents w !! this with
           | Some d => Ok (d, w)
           | None => UB
           end.

(** [Document::Document]: [strcpy(name, fn)] into the fresh [char name[20]]. *)
Definition Document_ctor (fn : string) : result char_array :=
  strcpy (replicate NAME_SIZE None) fn.

(** [new MyDocument(fn)] *)
Definition new_MyDocument (fn : string) : M loc :=
  a <- gets (fun w => alloc (live w)) ;;
  buf <- lift (Document_ctor fn) ;;
  modify (set_documents
            <[a := {| document_class := MyDocument; name := buf |}]>) ;;
  ret a.

Definition MyDocument_Open (this : loc) : M unit :=
  print ("   MyDocument: Open()" +:+ endl).

Definition MyDocument_Close (this : loc) : M unit :=
  print ("   MyDocument: Close()" +:+ endl).

Definition Open (this : loc) : M unit :=
  log (Call_Open this) ;;
  d <- Document_load this ;;
  match document_class d with
  | MyDocument => MyDocument_Open this
  end.

Definition Close (this : loc) : M unit :=
  log (Call_Close this) ;;
  d <- Document_load this ;;
  match document_class d with
  | MyDocument => MyDocument_Close this
  end.

(** [GetName] returns a pointer to [name]; what can be done with it is to
    read the array. *)
Definition GetName (this : loc) : M char_array :=
  log (Call_GetName this) ;;
  d <- Document_load this ;;
  ret (name d).

(** [cout << p] for [p] pointing to a [char] array. *)
Definition print_cstr (buf : char_array) : M unit :=
  s <- lift (read_cstr buf) ;;
  print s.

(** *** [Application] and [MyApplication] *)

(** [_docs[i] = p]; the array has [DOCS_SIZE] cells and nothing checks [i]. *)
Definition docs_store (docs : list (option loc)) (i : Z) (p : loc)
    : M (list (option loc)) :=
  if decide (0 <= i < DOCS_SIZE) then
    log (Write_docs i p) ;;
    ret (<[Z.to_nat i := Some p]> docs)
  else undefined.

(** [_docs[i]] read as a pointer value. *)
Definition docs_load (docs : list (option loc)) (i : Z) : M loc :=
  if decide (0 <= i < DOCS_SIZE) then
    match docs !! Z.to_nat i with
    | Some (Some p) => ret p
    | _ => undefined
    end
  else undefined.

Definition Application_ctor : M Application :=
  let this := {| application_class := MyApplication; _index := 0;
                 _docs := replicate (Z.to_nat DOCS_SIZE) None |} in
  print ("Application: ctor" +:+ endl) ;;
  ret this.

Definition MyApplication_ctor : M Application :=
  this <- Application_ctor ;;
  print ("MyApplication: ctor" +:+ endl) ;;
  ret this.

Definition MyApplication_CreateDocument (this : Application) (fn : string)
    : M loc :=
  print ("   MyApplication: CreateDocument()" +:+ endl) ;;
  new_MyDocument fn.

(** The creation hook, pure virtual in [Application]. *)
Definition CreateDocument (this : Application) (fn : string) : M loc :=
  log (Call_CreateDocument fn) ;;
  match application_class this with
  | MyApplication => MyApplication_CreateDocument this fn
  end.

Definition NewDocument (this : Application) (name : string) : M Application :=
  print ("Application: NewDocument()" +:+ endl) ;;
  d <- CreateDocument this name ;;
  docs <- docs_store (_docs this) (_index this) d ;;
  let this := {| application_class := application_class this;
                 _index := _index this; _docs := docs |} in
  d <- docs_load (_docs this) (_index this) ;;
  let this := {| application_class := application_class this;
                 _index := wrap32 (_index this + 1); _docs := _docs this |} in
  Open d ;;
  ret this.

Definition OpenDocument (this : Application) : M unit := ret tt.

(** [for (int i = 0; i < _index; i++)]: the body runs for i = 0, 1, ...,
    _index - 1, and not at all when [_index <= 0]. *)
Definition ReportDocs (this : Application) : M unit :=
  print ("Application: ReportDocs()" +:+ endl) ;;
  for_each (seqZ 0 (_index this)) (fun i =>
    d <- docs_load (_docs this) i ;;
    buf <- GetName d ;;
    print "   " ;; print_cstr buf ;; print endl).

(** ** 3. Abstract Factory *)

(** [Shape::Shape]: [id_ = total_++;] *)
Definition Shape_ctor : M Z :=
  t <- gets total_ ;;
  modify (set_total_ (fun _ => wrap32 (t + 1))) ;;
  ret t.

(** [new C] for a concrete shape class [C]; the only constructor code that
    runs is the one of the base class. *)
Definition new_Shape (c : ShapeClass) : M loc :=
  a <- gets (fun w => alloc (live w)) ;;
  i <- Shape_ctor ;;
  modify (set_shapes <[a := {| shape_class := c; id_ := i |}]>) ;;
  ret a.

Definition Shape_load (this : loc) : M Shape :=
  fun w => match shapes w !! this with
           | Some s => Ok (s, w)
           | None => UB
           end.

(** [cout << id_] writes the decimal numeral. *)
Definition Circle_draw (this : loc) : M unit :=
  s <- Shape_load this ;;
  print ("circle " +:+ pretty (id_ s) +:+ ": draw" +:+ endl).

Definition Square_draw (this : loc) : M unit :=
  s <- Shape_load this ;;
  print ("square " +:+ pretty (id_ s) +:+ ": draw" +:+ endl).

Definition Ellipse_draw (this : loc) : M unit :=
  s <- Shape_load this ;;
  print ("ellipse " +:+ pretty (id_ s) +:+ ": draw" +:+ endl).

Definition Rectangle_draw (this : loc) : M unit :=
  s <- Shape_load this ;;
  print ("rectangle " +:+ pretty (id_ s) +:+ ": draw" +:+ endl).

Definition draw (this : loc) : M unit :=
  s <- Shape_load this ;;
  match shape_class s with
  | Circle => Circle_draw this
  | Square => Square_draw this
  | Ellipse => Ellipse_draw this
  | Rectangle => Rectangle_draw this
  end.

Definition createCurvedInstance (this : Factory) : M loc :=
  match this with
  | SimpleShapeFactory => new_Shape Circle
  | RobustShapeFactory => new_Shape Ellipse
  end.

Definition createStraightInstance (this : Factory) : M loc :=
  match this with
  | SimpleShapeFactory => new_Shape Square
  | RobustShapeFactory => new_Shape Rectangle
  end.

(** ** The entry point *)

Definition banner_BUILDER : string :=
  endl +:+ "----------------BUILDER ---------------------------".
Definition banner_FACTORY_METHOD : string :=
  endl +:+ "----------------FACTORY METHOD ---------------------------".
Definition banner_ABSTRACT_FACTORY : string :=
  endl +:+ "----------------ABSTRACT FACTORY ---------------------------".

Definition main : M Z :=
  print (banner_BUILDER +:+ endl) ;;
  let cook := {| m_pizzaBuilder := None |} in
  hawaiianPizzaBuilder <- PizzaBuilder_ctor HawaiianPizzaBuilder ;;
  spicyPizzaBuilder <- PizzaBuilder_ctor SpicyPizzaBuilder ;;
  cook <- makePizza cook hawaiianPizzaBuilder ;;
  openPizza cook ;;
  cook <- makePizza cook spicyPizzaBuilder ;;
  openPizza cook ;;
  print (banner_FACTORY_METHOD +:+ endl) ;;
  myApp <- MyApplication_ctor ;;
  myApp <- NewDocument myApp "foo" ;;
  myApp <- NewDocument myApp "bar" ;;
  ReportDocs myApp ;;
  print (banner_ABSTRACT_FACTORY +:+ endl) ;;
  let factory := SimpleShapeFactory in
  s0 <- createCurvedInstance factory ;;
  s1 <- createStraightInstance factory ;;
  s2 <- createCurvedInstance factory ;;
  let shapes := [s0; s1; s2] in
  for_each (seqZ 0 3) (fun i =>
    s <- deref (shapes !! Z.to_nat i) ;;
    draw s) ;;
  ret 0.
(** The destructors that run when [main] returns print nothing and are
    left out. *)

End Program.

(** * Specification vocabulary *)

Section Vocabulary.
Context `{!Allocator}.

(** What a builder of class [c] leaves in the product after its three
    build steps. *)
Definition built (c : BuilderClass) : Pizza :=
  match c with
  | HawaiianPizzaBuilder =>
      {| m_dough := "cross"; m_sauce := "mild"; m_topping := "ham+pineapple" |}
  | SpicyPizzaBuilder =>
      {| m_dough := "pan baked"; m_sauce := "hot";
         m_topping := "pepperoni+salami" |}
  end.

(** The pizza store once the [unique_ptr] has let go of what it held. *)
Definition released (old : option loc) (pz : gmap loc Pizza) : gmap loc Pizza :=
  match old with
  | Some a => delete a pz
  | None => pz
  end.

(** Every non-null [m_pizza] points to a live pizza, and no pizza has two
    owners: what [unique_ptr] stands for. *)
Definition owned_live (w : World) : Prop :=
  forall b o a, builders w !! b = Some o -> m_pizza o = Some a ->
    is_Some (pizzas w !! a).

Definition sole_owner (w : World) : Prop :=
  forall b1 b2 o1 o2 a,
    builders w !! b1 = Some o1 -> builders w !! b2 = Some o2 ->
    m_pizza o1 = Some a -> m_pizza o2 = Some a -> b1 = b2.

(** The state [makePizza] leaves behind. *)
Definition after_makePizza (pb : loc) (o : PizzaBuilder) (w : World) : World :=
  {| stdout := stdout w;
     trace := trace w ++ [Call_createNewPizzaProduct pb; Call_buildDough pb;
                          Call_buildSauce pb; Call_buildTopping pb];
     pizzas := <[alloc (live w) := built (builder_class o)]>
                 (released (m_pizza o) (pizzas w));
     builders := <[pb := {| builder_class := builder_class o;
                            m_pizza := Some (alloc (live w)) |}]> (builders w);
     documents := documents w; shapes := shapes w; total_ := total_ w |}.

Definition Pizza_line (p : Pizza) : string :=
  "Pizza with " +:+ m_dough p +:+ " dough, " +:+ m_sauce p
  +:+ " sauce and " +:+ m_topping p +:+ " topping. Mmm." +:+ endl.

(** [w'] differs from [w] at most in the pizza stored at [a] and in the
    ghost trace. *)
Definition only_pizza_changed (a : loc) (w w' : World) : Prop :=
  stdout w' = stdout w /\ builders w' = builders w /\
  documents w' = documents w /\ shapes w' = shapes w /\
  total_ w' = total_ w /\
  forall a', a' <> a -> pizzas w' !! a' = pizzas w !! a'.

(** The product a builder currently holds. *)
Definition product_of (b : loc) (w : World) : option loc :=
  match builders w !! b with
  | Some o => m_pizza o
  | None => None
  end.

(** States to run the builder demo from: one Hawaiian builder at address 1
    that has made nothing yet; the same builder with a blank pizza in
    progress at address 2. *)
Definition idle_kitchen : World :=
  {| stdout := EmptyString; trace := []; pizzas := ∅;
     builders := {[ 1%positive := {| builder_class := HawaiianPizzaBuilder;
                                     m_pizza := None |} ]};
     documents := ∅; shapes := ∅; total_ := 0 |}.

Definition busy_kitchen : World :=
  {| stdout := EmptyString; trace := [];
     pizzas := {[ 2%positive := {| m_dough := EmptyString;
                                   m_sauce := EmptyString;
                                   m_topping := EmptyString |} ]};
     builders := {[ 1%positive := {| builder_class := HawaiianPizzaBuilder;
                                     m_pizza := Some 2%positive |} ]};
     documents := ∅; shapes := ∅; total_ := 0 |}.

(** A run of [NewDocument], once per name, in order. *)
Fixpoint NewDocuments (this : Application) (names : list string)
    : M Application :=
  match names with
  | [] => ret this
  | fn :: names' => this' <- NewDocument this fn ;; NewDocuments this' names'
  end.

(** A C string that fits [char name[20]] together with its terminator. *)
Definition valid_name (fn : string) : Prop :=
  is_cstring fn = true /\ (String.length fn < NAME_SIZE)%nat.

(** The cells of [_docs] below [_index]. *)
Definition registry (this : Application) : list (option loc) :=
  take (Z.to_nat (_index this)) (_docs this).

(** The name held by the document at [p], if there is one and its array
    holds a C string. *)
Definition name_of (ds : gmap loc Document) (p : loc) : option string :=
  match ds !! p with
  | Some d => match read_cstr (name d) with
              | Ok s => Some s
              | UB => None
              end
  | None => None
  end.

(** The registry of [this] holds, in order, pairwise distinct live
    documents named [fns]. *)
Definition registered (this : Application) (w : World) (fns : list string)
    : Prop :=
  _index this = Z.of_nat (length fns)
  /\ length (_docs this) = Z.to_nat DOCS_SIZE
  /\ exists ps : list loc,
       registry this = Some <$> ps /\ NoDup ps
       /\ Forall2 (fun p s => name_of (documents w) p = Some s) ps fns.

Definition NewDocument_lines : string :=
  "Application: NewDocument()" +:+ endl
  +:+ "   MyApplication: CreateDocument()" +:+ endl
  +:+ "   MyDocument: Open()" +:+ endl.

Fixpoint report_lines (fns : list string) : string :=
  match fns with
  | [] => EmptyString
  | s :: fns' => "   " +:+ s +:+ endl +:+ report_lines fns'
  end.

(** The indices of the writes into [_docs] recorded in a trace. *)
Fixpoint docs_writes (t : list Event) : list Z :=
  match t with
  | [] => []
  | Write_docs i _ :: t' => i :: docs_writes t'
  | _ :: t' => docs_writes t'
  end.

(** What the constructor of [MyApplication] returns. *)
Definition new_application : Application :=
  {| application_class := MyApplication; _index := 0;
     _docs := replicate (Z.to_nat DOCS_SIZE) None |}.

(** [w'] differs from [w] only in what was printed and traced. *)
Definition same_objects (w w' : World) : Prop :=
  pizzas w' = pizzas w /\ builders w' = builders w
  /\ documents w' = documents w /\ shapes w' = shapes w
  /\ total_ w' = total_ w.

(** A newly constructed application followed by one [NewDocument] per
    name. *)
Definition fresh_application_run (names : list string) : M Application :=
  this <- MyApplication_ctor ;; NewDocuments this names.

(** Shapes of the given classes constructed one after the other. *)
Fixpoint new_Shapes (cs : list ShapeClass) : M (list loc) :=
  match cs with
  | [] => ret []
  | c :: cs' => p <- new_Shape c ;; ps <- new_Shapes cs' ;; ret (p :: ps)
  end.

Definition id_of (w : World) (p : loc) : option Z := id_ <$> shapes w !! p.

Definition class_of (w : World) (p : loc) : option ShapeClass :=
  shape_class <$> shapes w !! p.

(** The state [new_Shape c] leaves behind. *)
Definition after_new_Shape (c : ShapeClass) (w : World) : World :=
  {| stdout := stdout w; trace := trace w; pizzas := pizzas w;
     builders := builders w; documents := documents w;
     shapes := <[alloc (live w) := {| shape_class := c; id_ := total_ w |}]>
                 (shapes w);
     total_ := wrap32 (total_ w + 1) |}.

(** The line [draw] prints for a shape. *)
Definition draw_line (s : Shape) : string :=
  match shape_class s with
  | Circle => "circle "
  | Square => "square "
  | Ellipse => "ellipse "
  | Rectangle => "rectangle "
  end +:+ pretty (id_ s) +:+ ": draw" +:+ endl.

(** The client code of the demo: curved, straight, curved. *)
Definition three_shapes (factory : Factory) : M (list loc) :=
  s0 <- createCurvedInstance factory ;;
  s1 <- createStraightInstance factory ;;
  s2 <- createCurvedInstance factory ;;
  ret [s0; s1; s2].

(** Lines, each followed by a line end. *)
Fixpoint unlines (ls : list string) : string :=
  match ls with
  | [] => EmptyString
  | l :: ls' => l +:+ endl +:+ unlines ls'
  end.

(** Everything a run of the program writes to standard output. *)
Definition main_stdout_lines : list string :=
  [ EmptyString;
    "----------------BUILDER ---------------------------";
    "Pizza with cross dough, mild sauce and ham+pineapple topping. Mmm.";
    "Pizza with pan baked dough, hot sauce and pepperoni+salami topping. Mmm.";
    EmptyString;
    "----------------FACTORY METHOD ---------------------------";
    "Application: ctor";
    "MyApplication: ctor";
    "Application: NewDocument()";
    "   MyApplication: CreateDocument()";
    "   MyDocument: Open()";
    "Application: NewDocument()";
    "   MyApplication: CreateDocument()";
    "   MyDocument: Open()";
    "Application: ReportDocs()";
    "   foo";
    "   bar";
    EmptyString;
    "----------------ABSTRACT FACTORY ---------------------------";
    "circle 0: draw";
    "square 1: draw";
    "circle 2: draw" ].

(** The three build steps as data, to speak of sequences of them. *)
Inductive BuildStep := Dough | Sauce | Topping.

#[global] Instance BuildStep_eq_dec : EqDecision BuildStep.
Proof. solve_decision. Defined.

Definition build_step (s : BuildStep) (this : loc) : M unit :=
  match s with
  | Dough => buildDough this
  | Sauce => buildSauce this
  | Topping => buildTopping this
  end.

Fixpoint build_steps (l : list BuildStep) (this : loc) : M unit :=
  match l with
  | [] => ret tt
  | s :: l' => build_step s this ;; build_steps l' this
  end.

(** The pizza [p] once a builder of class [c] has run the steps [l] on it:
    a field holds the builder's literal if its step occurs in [l]. *)
Definition after_steps (c : BuilderClass) (l : list BuildStep) (p : Pizza)
    : Pizza :=
  {| m_dough := if decide (Dough ∈ l) then m_dough (built c) else m_dough p;
     m_sauce := if decide (Sauce ∈ l) then m_sauce (built c) else m_sauce p;
     m_topping := if decide (Topping ∈ l) then m_topping (built c)
                  else m_topping p |}.

(** What [make_unique<Pizza>()] constructs. *)
Definition blank : Pizza :=
  {| m_dough := EmptyString; m_sauce := EmptyString;
     m_topping := EmptyString |}.

(** Every live pizza is held by some builder. *)
Definition no_orphan (w : World) : Prop :=
  forall a, is_Some (pizzas w !! a) ->
    exists b o, builders w !! b = Some o /\ m_pizza o = Some a.

Definition kitchen_ok (w : World) : Prop :=
  owned_live w /\ sole_owner w /\ no_orphan w.

(** The characters of a C string followed by its terminator, as cells of a
    [char] array. *)
Definition cells_of (s : string) : char_array :=
  (Some <$> String.list_ascii_of_string s) ++ [Some NUL].

(** States to run single operations from: one document named foo at
    address 1; one circle numbered 0 at address 1. *)
Definition reading_room : World :=
  {| stdout := EmptyString; trace := []; pizzas := ∅; builders := ∅;
     documents := {[ 1%positive :=
                       {| document_class := MyDocument;
                          name := cells_of "foo" ++ replicate 16 None |} ]};
     shapes := ∅; total_ := 0 |}.

Definition one_circle : World :=
  {| stdout := EmptyString; trace := []; pizzas := ∅; builders := ∅;
     documents := ∅;
     shapes := {[ 1%positive := {| shape_class := Circle; id_ := 0 |} ]};
     total_ := 1 |}.

(** A kitchen with two builders: the Hawaiian one at address 1 holds a
    finished pizza at address 3, the Spicy one at address 2 holds none. *)
Definition two_builders : World :=
  {| stdout := EmptyString; trace := [];
     pizzas := {[ 3%positive := built HawaiianPizzaBuilder ]};
     builders :=
       <[ 1%positive := {| builder_class := HawaiianPizzaBuilder;
                           m_pizza := Some 3%positive |} ]>
         {[ 2%positive := {| builder_class := SpicyPizzaBuilder;
                             m_pizza := None |} ]};
     documents := ∅; shapes := ∅; total_ := 0 |}.

End Vocabulary.

(** * Reasoning about runs *)

Ltac unfold_monad :=
  unfold log, print;
  unfold bind, ret, gets, modify, lift, deref, undefined.

Ltac wsimpl :=
  cbn [stdout trace pizzas builders documents shapes total_
       set_stdout set_trace set_pizzas set_builders set_documents
       set_shapes set_total_ fst snd
       m_dough m_sauce m_topping builder_class m_pizza m_pizzaBuilder
       document_class name application_class _index _docs
       shape_class id_].

Tactic Notation "wsimpl" "in" hyp(H) :=
  cbn [stdout trace pizzas builders documents shapes total_
       set_stdout set_trace set_pizzas set_builders set_documents
       set_shapes set_total_ fst snd
       m_dough m_sauce m_topping builder_class m_pizza m_pizzaBuilder
       document_class name application_class _index _docs
       shape_class id_] in H.

Lemma live_set_stdout f w : live (set_stdout f w) = live w.
Proof. reflexivity. Qed.
Lemma live_set_trace f w : live (set_trace f w) = live w.
Proof. reflexivity. Qed.
Lemma live_set_total_ f w : live (set_total_ f w) = live w.
Proof. reflexivity. Qed.

Ltac wsimpl' :=
  wsimpl; rewrite ?live_set_stdout, ?live_set_trace, ?live_set_total_.

Ltac msimpl := repeat progress (unfold_monad; wsimpl').

Lemma World_eq (w w' : World) :
  stdout w = stdout w' -> trace w = trace w' -> pizzas w = pizzas w' ->
  builders w = builders w' -> documents w = documents w' ->
  shapes w = shapes w' -> total_ w = total_ w' -> w = w'.
Proof. destruct w, w'. simpl. intros. subst. reflexivity. Qed.

Lemma Ok_eq {A : Type} (a a' : A) (w w' : World) :
  a = a' -> w = w' -> Ok (a, w) = Ok (a', w').
Proof. intros -> ->. reflexivity. Qed.

(** Compare two runs field by field. *)
Ltac wnorm := apply Ok_eq; [try reflexivity | apply World_eq; wsimpl].

Section Builder_proofs.
Context `{!Allocator}.

Lemma alloc_not_pizza (w : World) : pizzas w !! alloc (live w) = None.
Proof.
  apply not_elem_of_dom. intros Hin.
  apply (alloc_fresh (live w)). unfold live. set_solver.
Qed.

Lemma alloc_not_builder (w : World) : builders w !! alloc (live w) = None.
Proof.
  apply not_elem_of_dom. intros Hin.
  apply (alloc_fresh (live w)). unfold live. set_solver.
Qed.

Lemma alloc_not_document (w : World) : documents w !! alloc (live w) = None.
Proof.
  apply not_elem_of_dom. intros Hin.
  apply (alloc_fresh (live w)). unfold live. set_solver.
Qed.

Lemma alloc_not_shape (w : World) : shapes w !! alloc (live w) = None.
Proof.
  apply not_elem_of_dom. intros Hin.
  apply (alloc_fresh (live w)). unfold live. set_solver.
Qed.

Lemma createNewPizzaProduct_run (this : loc) (o : PizzaBuilder) (w : World) :
  builders w !! this = Some o ->
  (forall old, m_pizza o = Some old -> is_Some (pizzas w !! old)) ->
  createNewPizzaProduct this w =
    Ok (tt,
        {| stdout := stdout w;
           trace := trace w ++ [Call_createNewPizzaProduct this];
           pizzas := released (m_pizza o)
                       (<[alloc (live w) := mkPizza EmptyString EmptyString EmptyString]>
                          (pizzas w));
           builders := <[this := {| builder_class := builder_class o;
                                    m_pizza := Some (alloc (live w)) |}]>
                         (builders w);
           documents := documents w; shapes := shapes w;
           total_ := total_ w |}).
Proof.
  intros Hb Hold.
  unfold createNewPizzaProduct, make_unique_Pizza, Pizza_store,
    PizzaBuilder_load, PizzaBuilder_store, delete_Pizza, Pizza_load.
  unfold_monad. wsimpl'. rewrite Hb. wsimpl'.
  destruct (m_pizza o) as [old|] eqn:Hm; wsimpl; [|reflexivity].
  destruct (Hold old eq_refl) as [p Hp].
  assert (old <> alloc (live w)) as Hne.
  { intros ->. rewrite alloc_not_pizza in Hp. discriminate. }
  rewrite lookup_insert_ne by congruence. rewrite Hp. reflexivity.
Qed.

Lemma released_insert_fresh (old : option loc) (a : loc) (p : Pizza)
    (pz : gmap loc Pizza) :
  pz !! a = None ->
  (forall o, old = Some o -> is_Some (pz !! o)) ->
  released old (<[a := p]> pz) = <[a := p]> (released old pz).
Proof.
  intros Ha Hold. destruct old as [o|]; [|reflexivity].
  destruct (Hold o eq_refl) as [q Hq]. simpl.
  apply delete_insert_ne. intros ->. congruence.
Qed.

(** The three build steps, for either concrete builder: one field of the
    pizza in progress is overwritten with the builder's literal. *)
Lemma buildDough_run (this a : loc) (o : PizzaBuilder) (p : Pizza) (w : World) :
  builders w !! this = Some o -> m_pizza o = Some a -> pizzas w !! a = Some p ->
  buildDough this w =
    Ok (tt,
        {| stdout := stdout w; trace := trace w ++ [Call_buildDough this];
           pizzas := <[a := {| m_dough := m_dough (built (builder_class o));
                               m_sauce := m_sauce p;
                               m_topping := m_topping p |}]> (pizzas w);
           builders := builders w; documents := documents w;
           shapes := shapes w; total_ := total_ w |}).
Proof.
  intros Hb Hm Hp.
  unfold buildDough, HawaiianPizzaBuilder_buildDough,
    SpicyPizzaBuilder_buildDough, on_m_pizza, setDough, Pizza_store,
    PizzaBuilder_load, Pizza_load.
  msimpl. rewrite Hb.
  destruct (builder_class o); msimpl; rewrite Hb, Hm; msimpl; rewrite Hp;
    reflexivity.
Qed.

Lemma buildSauce_run (this a : loc) (o : PizzaBuilder) (p : Pizza) (w : World) :
  builders w !! this = Some o -> m_pizza o = Some a -> pizzas w !! a = Some p ->
  buildSauce this w =
    Ok (tt,
        {| stdout := stdout w; trace := trace w ++ [Call_buildSauce this];
           pizzas := <[a := {| m_dough := m_dough p;
                               m_sauce := m_sauce (built (builder_class o));
                               m_topping := m_topping p |}]> (pizzas w);
           builders := builders w; documents := documents w;
           shapes := shapes w; total_ := total_ w |}).
Proof.
  intros Hb Hm Hp.
  unfold buildSauce, HawaiianPizzaBuilder_buildSauce,
    SpicyPizzaBuilder_buildSauce, on_m_pizza, setSauce, Pizza_store,
    PizzaBuilder_load, Pizza_load.
  msimpl. rewrite Hb.
  destruct (builder_class o); msimpl; rewrite Hb, Hm; msimpl; rewrite Hp;
    reflexivity.
Qed.

Lemma buildTopping_run (this a : loc) (o : PizzaBuilder) (p : Pizza) (w : World) :
  builders w !! this = Some o -> m_pizza o = Some a -> pizzas w !! a = Some p ->
  buildTopping this w =
    Ok (tt,
        {| stdout := stdout w; trace := trace w ++ [Call_buildTopping this];
           pizzas := <[a := {| m_dough := m_dough p;
                               m_sauce := m_sauce p;
                               m_topping := m_topping (built (builder_class o)) |}]>
                       (pizzas w);
           builders := builders w; documents := documents w;
           shapes := shapes w; total_ := total_ w |}).
Proof.
  intros Hb Hm Hp.
  unfold buildTopping, HawaiianPizzaBuilder_buildTopping,
    SpicyPizzaBuilder_buildTopping, on_m_pizza, setTopping, Pizza_store,
    PizzaBuilder_load, Pizza_load.
  msimpl. rewrite Hb.
  destruct (builder_class o); msimpl; rewrite Hb, Hm; msimpl; rewrite Hp;
    reflexivity.
Qed.

Lemma makePizza_run (this : Cook) (pb : loc) (o : PizzaBuilder) (w : World) :
  builders w !! pb = Some o ->
  (forall old, m_pizza o = Some old -> is_Some (pizzas w !! old)) ->
  makePizza this pb w =
    Ok ({| m_pizzaBuilder := Some pb |}, after_makePizza pb o w).
Proof.
  intros Hb Hold. unfold makePizza.
  cbn [m_pizzaBuilder deref]. unfold bind at 1. unfold ret at 1.
  unfold bind at 1.
  rewrite (createNewPizzaProduct_run pb o w Hb Hold).
  rewrite released_insert_fresh by (auto using alloc_not_pizza).
  set (a := alloc (live w)).
  unfold bind at 1. unfold ret at 1. unfold bind at 1.
  erewrite buildDough_run;
    [| wsimpl; apply lookup_insert_eq | reflexivity
     | wsimpl; apply lookup_insert_eq ].
  unfold bind at 1. unfold ret at 1. unfold bind at 1.
  erewrite buildSauce_run;
    [| wsimpl; apply lookup_insert_eq | reflexivity
     | wsimpl; apply lookup_insert_eq ].
  unfold bind at 1. unfold ret at 1. unfold bind at 1.
  erewrite buildTopping_run;
    [| wsimpl; apply lookup_insert_eq | reflexivity
     | wsimpl; apply lookup_insert_eq ].
  unfold ret, after_makePizza. wsimpl. fold a.
  rewrite !insert_insert_eq. rewrite <- !(assoc_L (++)). simpl.
  destruct (builder_class o); reflexivity.
Qed.

Lemma openPizza_run (this : Cook) (pb a : loc) (o : PizzaBuilder) (p : Pizza)
    (w : World) :
  m_pizzaBuilder this = Some pb ->
  builders w !! pb = Some o -> m_pizza o = Some a -> pizzas w !! a = Some p ->
  openPizza this w =
    Ok (tt, set_stdout (fun out => out +:+ Pizza_line p)
              (set_trace (fun t => t ++ [Call_getPizza pb]) w)).
Proof.
  intros Hc Hb Hm Hp.
  unfold openPizza, getPizza, open, PizzaBuilder_load, Pizza_load.
  rewrite Hc. msimpl. rewrite Hb. msimpl. rewrite Hm. msimpl. rewrite Hp.
  reflexivity.
Qed.


Lemma makePizza_keeps_ownership (pb : loc) (o : PizzaBuilder) (w : World) :
  owned_live w -> sole_owner w -> builders w !! pb = Some o ->
  owned_live (after_makePizza pb o w) /\ sole_owner (after_makePizza pb o w).
Proof.
  intros Hlive Hsole Hb.
  assert (forall b o' a', b <> pb -> builders w !! b = Some o' ->
            m_pizza o' = Some a' ->
            pizzas (after_makePizza pb o w) !! a' = pizzas w !! a'
            /\ a' <> alloc (live w)) as Hother.
  { intros b o' a' Hne Hb' Hm'.
    destruct (Hlive b o' a' Hb' Hm') as [q Hq].
    assert (a' <> alloc (live w)) as Hfresh.
    { intros ->. rewrite alloc_not_pizza in Hq. discriminate. }
    split; [|exact Hfresh].
    unfold after_makePizza. wsimpl.
    rewrite lookup_insert_ne by congruence.
    destruct (m_pizza o) as [old|] eqn:Hm; simpl; [|reflexivity].
    apply lookup_delete_ne. intros Heq. subst.
    apply Hne. eapply Hsole; eauto. }
  split.
  - intros b o' a' Hb' Hm'. unfold after_makePizza in Hb'. wsimpl in Hb'.
    destruct (decide (b = pb)) as [->|Hne].
    + rewrite lookup_insert_eq in Hb'. injection Hb' as <-.
      simpl in Hm'. injection Hm' as <-.
      unfold after_makePizza. wsimpl. rewrite lookup_insert_eq. eauto.
    + rewrite lookup_insert_ne in Hb' by congruence.
      destruct (Hother b o' a' Hne Hb' Hm') as [-> _]. eauto.
  - intros b1 b2 o1 o2 a' H1 H2 Hm1 Hm2.
    unfold after_makePizza in H1, H2. wsimpl in H1. wsimpl in H2.
    destruct (decide (b1 = pb)) as [->|Hne1];
      destruct (decide (b2 = pb)) as [->|Hne2]; [reflexivity| | |].
    + rewrite lookup_insert_eq in H1. injection H1 as <-.
      rewrite lookup_insert_ne in H2 by congruence.
      simpl in Hm1. injection Hm1 as <-.
      destruct (Hother b2 o2 _ Hne2 H2 Hm2) as [_ Hf]. congruence.
    + rewrite lookup_insert_eq in H2. injection H2 as <-.
      rewrite lookup_insert_ne in H1 by congruence.
      simpl in Hm2. injection Hm2 as <-.
      destruct (Hother b1 o1 _ Hne1 H1 Hm1) as [_ Hf]. congruence.
    + rewrite lookup_insert_ne in H1 by congruence.
      rewrite lookup_insert_ne in H2 by congruence.
      exact (Hsole b1 b2 o1 o2 a' H1 H2 Hm1 Hm2).
Qed.

Lemma initial_world_ownership :
  owned_live initial_world /\ sole_owner initial_world.
Proof.
  split.
  - intros b o a Hb. unfold initial_world in Hb. wsimpl in Hb.
    rewrite lookup_empty in Hb. discriminate.
  - intros b1 b2 o1 o2 a Hb. unfold initial_world in Hb. wsimpl in Hb.
    rewrite lookup_empty in Hb. discriminate.
Qed.

Lemma PizzaBuilder_ctor_keeps_ownership (c : BuilderClass) (w : World) :
  owned_live w -> sole_owner w ->
  exists (b : loc) (w' : World),
    PizzaBuilder_ctor c w = Ok (b, w')
    /\ builders w' !! b = Some {| builder_class := c; m_pizza := None |}
    /\ owned_live w' /\ sole_owner w'.
Proof.
  intros Hlive Hsole. eexists _, _. split; [reflexivity|]. wsimpl.
  split; [apply lookup_insert_eq|]. split.
  - intros b o a Hb Hm. wsimpl in Hb. wsimpl.
    apply lookup_insert_Some in Hb as [[_ <-]|[_ Hb]]; [discriminate|].
    exact (Hlive b o a Hb Hm).
  - intros b1 b2 o1 o2 a H1 H2 Hm1 Hm2. wsimpl in H1. wsimpl in H2.
    apply lookup_insert_Some in H1 as [[_ <-]|[_ H1]]; [discriminate|].
    apply lookup_insert_Some in H2 as [[_ <-]|[_ H2]]; [discriminate|].
    exact (Hsole b1 b2 o1 o2 a H1 H2 Hm1 Hm2).
Qed.

(** C1: after [makePizza] with a Hawaiian builder the product is
    cross / mild / ham+pineapple, with a Spicy builder it is
    pan baked / hot / pepperoni+salami; [openPizza] then prints the
    corresponding line. *)
Theorem makePizza_yields_variant_literals
    (this : Cook) (pb : loc) (o : PizzaBuilder) (w : World) :
  builders w !! pb = Some o ->
  (forall old, m_pizza o = Some old -> is_Some (pizzas w !! old)) ->
  exists (this' : Cook) (w' : World) (a : loc),
    makePizza this pb w = Ok (this', w')
    /\ m_pizzaBuilder this' = Some pb
    /\ (exists o', builders w' !! pb = Some o' /\ m_pizza o' = Some a
                  /\ builder_class o' = builder_class o)
    /\ pizzas w' !! a =
         Some (match builder_class o with
               | HawaiianPizzaBuilder =>
                   {| m_dough := "cross"; m_sauce := "mild";
                      m_topping := "ham+pineapple" |}
               | SpicyPizzaBuilder =>
                   {| m_dough := "pan baked"; m_sauce := "hot";
                      m_topping := "pepperoni+salami" |}
               end)
    /\ exists w'', openPizza this' w' = Ok (tt, w'')
         /\ stdout w'' =
              stdout w' +:+
              match builder_class o with
              | HawaiianPizzaBuilder =>
                  "Pizza with cross dough, mild sauce and ham+pineapple topping. Mmm."
              | SpicyPizzaBuilder =>
                  "Pizza with pan baked dough, hot sauce and pepperoni+salami topping. Mmm."
              end +:+ endl.
Proof.
  intros Hb Hold.
  exists {| m_pizzaBuilder := Some pb |}, (after_makePizza pb o w),
    (alloc (live w)).
  assert (builders (after_makePizza pb o w) !! pb =
            Some {| builder_class := builder_class o;
                    m_pizza := Some (alloc (live w)) |}) as Hb'
    by (unfold after_makePizza; wsimpl; apply lookup_insert_eq).
  assert (pizzas (after_makePizza pb o w) !! alloc (live w) =
            Some (built (builder_class o))) as Hp'
    by (unfold after_makePizza; wsimpl; apply lookup_insert_eq).
  split; [exact (makePizza_run this pb o w Hb Hold)|].
  split; [reflexivity|].
  split; [eexists; split; [exact Hb'|split; reflexivity]|].
  split; [rewrite Hp'; destruct (builder_class o); reflexivity|].
  eexists. split.
  - eapply openPizza_run; [reflexivity|exact Hb'|reflexivity|exact Hp'].
  - wsimpl. destruct (builder_class o); reflexivity.
Qed.

(** C7: [makePizza] enters exactly four member functions of the builder it
    is given, in the order createNewPizzaProduct, buildDough, buildSauce,
    buildTopping, whatever the builder's class. *)
Theorem makePizza_four_steps_in_order
    (this : Cook) (pb : loc) (o : PizzaBuilder) (w : World) :
  builders w !! pb = Some o ->
  (forall old, m_pizza o = Some old -> is_Some (pizzas w !! old)) ->
  exists (this' : Cook) (w' : World),
    makePizza this pb w = Ok (this', w')
    /\ trace w' = trace w ++ [Call_createNewPizzaProduct pb;
                               Call_buildDough pb;
                               Call_buildSauce pb;
                               Call_buildTopping pb].
Proof.
  intros Hb Hold.
  exists {| m_pizzaBuilder := Some pb |}, (after_makePizza pb o w).
  split; [exact (makePizza_run this pb o w Hb Hold) | reflexivity].
Qed.


(** C10: each build step overwrites one field of the pizza in progress with
    the builder's literal and leaves the other two fields, every other
    pizza and the rest of the state as they were. *)
Theorem build_steps_touch_one_attribute
    (this a : loc) (o : PizzaBuilder) (p : Pizza) (w : World) :
  builders w !! this = Some o -> m_pizza o = Some a -> pizzas w !! a = Some p ->
  (exists w', buildDough this w = Ok (tt, w')
     /\ only_pizza_changed a w w'
     /\ pizzas w' !! a =
          Some {| m_dough := match builder_class o with
                             | HawaiianPizzaBuilder => "cross"
                             | SpicyPizzaBuilder => "pan baked"
                             end;
                  m_sauce := m_sauce p; m_topping := m_topping p |})
  /\ (exists w', buildSauce this w = Ok (tt, w')
     /\ only_pizza_changed a w w'
     /\ pizzas w' !! a =
          Some {| m_dough := m_dough p;
                  m_sauce := match builder_class o with
                             | HawaiianPizzaBuilder => "mild"
                             | SpicyPizzaBuilder => "hot"
                             end;
                  m_topping := m_topping p |})
  /\ (exists w', buildTopping this w = Ok (tt, w')
     /\ only_pizza_changed a w w'
     /\ pizzas w' !! a =
          Some {| m_dough := m_dough p; m_sauce := m_sauce p;
                  m_topping := match builder_class o with
                               | HawaiianPizzaBuilder => "ham+pineapple"
                               | SpicyPizzaBuilder => "pepperoni+salami"
                               end |}).
Proof.
  intros Hb Hm Hp.
  split; [|split];
    (eexists; split;
     [ first [ exact (buildDough_run this a o p w Hb Hm Hp)
             | exact (buildSauce_run this a o p w Hb Hm Hp)
             | exact (buildTopping_run this a o p w Hb Hm Hp) ]
     | split;
       [ unfold only_pizza_changed; wsimpl;
         repeat (split; [reflexivity|]);
         intros a' Hne; apply lookup_insert_ne; congruence
       | wsimpl; rewrite lookup_insert_eq;
         destruct (builder_class o); reflexivity ] ]).
Qed.

(** C5: two successive runs of [makePizza] with builders of the same class
    (the same builder object or two of them) give two distinct pizza
    objects with equal attributes; no pizza has two owners afterwards, a
    write to the second pizza does not reach the first, and the first is
    still held by its builder unless that very builder made the second. *)
Theorem same_variant_twice_independent_products
    (this : Cook) (b1 b2 : loc) (o1 o2 : PizzaBuilder) (w : World) :
  owned_live w -> sole_owner w ->
  builders w !! b1 = Some o1 -> builders w !! b2 = Some o2 ->
  builder_class o1 = builder_class o2 ->
  exists (this1 : Cook) (w1 : World) (a1 : loc)
         (this2 : Cook) (w2 : World) (a2 : loc) (p : Pizza),
    makePizza this b1 w = Ok (this1, w1)
    /\ product_of b1 w1 = Some a1 /\ pizzas w1 !! a1 = Some p
    /\ makePizza this1 b2 w1 = Ok (this2, w2)
    /\ product_of b2 w2 = Some a2 /\ pizzas w2 !! a2 = Some p
    /\ a1 <> a2
    /\ owned_live w2 /\ sole_owner w2
    /\ (forall q, pizzas (set_pizzas <[a2 := q]> w2) !! a1 = pizzas w2 !! a1)
    /\ (b1 <> b2 -> product_of b1 w2 = Some a1 /\ pizzas w2 !! a1 = Some p)
    /\ (b1 = b2 -> pizzas w2 !! a1 = None).
Proof.
  intros Hlive Hsole H1 H2 Hclass.
  set (w1 := after_makePizza b1 o1 w).
  set (a1 := alloc (live w)).
  assert (builders w1 !! b1 =
            Some {| builder_class := builder_class o1; m_pizza := Some a1 |})
    as Hb1 by (unfold w1, after_makePizza; wsimpl; apply lookup_insert_eq).
  assert (pizzas w1 !! a1 = Some (built (builder_class o1))) as Hp1
    by (unfold w1, after_makePizza; wsimpl; apply lookup_insert_eq).
  destruct (makePizza_keeps_ownership b1 o1 w Hlive Hsole H1)
    as [Hlive1 Hsole1]. fold w1 in Hlive1, Hsole1.
  assert (exists o2', builders w1 !! b2 = Some o2'
            /\ builder_class o2' = builder_class o1
            /\ (b1 = b2 -> m_pizza o2' = Some a1))
    as (o2' & Hb2 & Hc2 & Hsame).
  { destruct (decide (b1 = b2)) as [<-|Hne].
    - eexists. split; [exact Hb1|]. split; reflexivity.
    - exists o2. split.
      + unfold w1, after_makePizza. wsimpl.
        rewrite lookup_insert_ne by congruence. exact H2.
      + split; congruence. }
  set (w2 := after_makePizza b2 o2' w1).
  set (a2 := alloc (live w1)).
  assert (a1 <> a2) as Hne12.
  { intros Heq. pose proof (alloc_not_pizza w1) as Hf. fold a2 in Hf.
    rewrite <- Heq in Hf. congruence. }
  assert (builders w2 !! b2 =
            Some {| builder_class := builder_class o2'; m_pizza := Some a2 |})
    as Hb2' by (unfold w2, after_makePizza; wsimpl; apply lookup_insert_eq).
  assert (pizzas w2 !! a2 = Some (built (builder_class o1))) as Hp2.
  { unfold w2, after_makePizza. wsimpl. fold a2.
    rewrite lookup_insert_eq, Hc2. reflexivity. }
  destruct (makePizza_keeps_ownership b2 o2' w1 Hlive1 Hsole1 Hb2)
    as [Hlive2 Hsole2]. fold w2 in Hlive2, Hsole2.
  exists {| m_pizzaBuilder := Some b1 |}, w1, a1,
         {| m_pizzaBuilder := Some b2 |}, w2, a2, (built (builder_class o1)).
  split; [apply makePizza_run; [exact H1 | eauto]|].
  split; [unfold product_of; rewrite Hb1; reflexivity|].
  split; [exact Hp1|].
  split; [apply makePizza_run; [exact Hb2 | eauto]|].
  split; [unfold product_of; rewrite Hb2'; reflexivity|].
  split; [exact Hp2|].
  split; [exact Hne12|].
  split; [exact Hlive2|]. split; [exact Hsole2|].
  split; [intros q; wsimpl; apply lookup_insert_ne; congruence|].
  split.
  - intros Hne.
    assert (builders w2 !! b1 = builders w1 !! b1) as Hkeep
      by (unfold w2, after_makePizza; wsimpl;
          apply lookup_insert_ne; congruence).
    split; [unfold product_of; rewrite Hkeep, Hb1; reflexivity|].
    unfold w2, after_makePizza. wsimpl. fold a2.
    rewrite lookup_insert_ne by congruence.
    destruct (m_pizza o2') as [old|] eqn:Hm; simpl; [|exact Hp1].
    rewrite lookup_delete_ne; [exact Hp1|].
    intros Heq. subst old. apply Hne. symmetry.
    exact (Hsole1 b2 b1 _ _ a1 Hb2 Hb1 Hm eq_refl).
  - intros Heq. unfold w2, after_makePizza. wsimpl. fold a2.
    rewrite lookup_insert_ne by congruence.
    rewrite (Hsame Heq). simpl. apply lookup_delete_eq.
Qed.

End Builder_proofs.

(** ** Factory Method *)

Lemma string_app_cons (x : ascii) (a b : string) :
  String x a +:+ b = String x (a +:+ b).
Proof. reflexivity. Qed.

Lemma string_app_assoc (a b c : string) : (a +:+ b) +:+ c = a +:+ (b +:+ c).
Proof.
  induction a as [|x a IH]; [reflexivity|].
  rewrite !string_app_cons, IH. reflexivity.
Qed.

Lemma string_app_nil_r (a : string) : a +:+ EmptyString = a.
Proof.
  induction a as [|x a IH]; [reflexivity|].
  rewrite string_app_cons, IH. reflexivity.
Qed.

Lemma wrap32_in_int (z : Z) : in_int z -> wrap32 z = z.
Proof.
  unfold in_int, INT_MIN, INT_MAX, wrap32. intros Hz.
  change (2 ^ 31) with 2147483648. change (2 ^ 32) with 4294967296.
  rewrite Z.mod_small; lia.
Qed.

Lemma strcpy_fits (src : string) :
  forall dst : char_array,
    is_cstring src = true -> (String.length src < length dst)%nat ->
    exists r, strcpy dst src = Ok r /\ read_cstr r = Ok src
              /\ length r = length dst.
Proof.
  induction src as [|c src IH]; intros [|x dst] Hc Hlen; simpl in *;
    try lia.
  - eexists. split; [reflexivity|]. split; reflexivity.
  - apply andb_true_iff in Hc as [Hc1 Hc2].
    apply negb_true_iff in Hc1. rewrite Hc1.
    destruct (IH dst Hc2 ltac:(lia)) as (r & -> & Hr & Hl).
    eexists. split; [reflexivity|]. simpl. rewrite Hc1, Hr, Hl.
    split; reflexivity.
Qed.

Lemma strcpy_overflow (src : string) :
  forall dst : char_array,
    is_cstring src = true -> (length dst <= String.length src)%nat ->
    strcpy dst src = UB.
Proof.
  induction src as [|c src IH]; intros [|x dst] Hc Hlen; simpl in *;
    try reflexivity; try lia.
  apply andb_true_iff in Hc as [Hc1 Hc2].
  apply negb_true_iff in Hc1. rewrite Hc1.
  rewrite (IH dst Hc2 ltac:(lia)). reflexivity.
Qed.

Section FactoryMethod_proofs.
Context `{!Allocator}.

Lemma Document_ctor_fits (fn : string) :
  valid_name fn ->
  exists buf, Document_ctor fn = Ok buf /\ read_cstr buf = Ok fn.
Proof.
  intros [Hc Hlen]. unfold Document_ctor.
  destruct (strcpy_fits fn (replicate NAME_SIZE None) Hc) as (r & Hr & Hs & _).
  - rewrite length_replicate. exact Hlen.
  - exists r. split; assumption.
Qed.

Lemma NewDocument_run (this : Application) (fn : string) (w : World) :
  0 <= _index this < DOCS_SIZE ->
  length (_docs this) = Z.to_nat DOCS_SIZE ->
  valid_name fn ->
  exists buf,
    Document_ctor fn = Ok buf /\ read_cstr buf = Ok fn
    /\ NewDocument this fn w =
         Ok ({| application_class := application_class this;
                _index := _index this + 1;
                _docs := <[Z.to_nat (_index this) := Some (alloc (live w))]>
                           (_docs this) |},
             {| stdout := stdout w +:+ NewDocument_lines;
                trace := trace w ++ [Call_CreateDocument fn;
                                     Write_docs (_index this) (alloc (live w));
                                     Call_Open (alloc (live w))];
                pizzas := pizzas w; builders := builders w;
                documents := <[alloc (live w) :=
                                 {| document_class := MyDocument;
                                    name := buf |}]> (documents w);
                shapes := shapes w; total_ := total_ w |}).
Proof.
  intros Hi Hlen Hfn.
  destruct (Document_ctor_fits fn Hfn) as (buf & Hbuf & Hread).
  exists buf. split; [exact Hbuf|]. split; [exact Hread|].
  unfold NewDocument, CreateDocument, MyApplication_CreateDocument,
    new_MyDocument, docs_store, docs_load, Open, Document_load,
    MyDocument_Open.
  destruct (application_class this).
  msimpl. rewrite Hbuf. msimpl.
  rewrite !decide_True by exact Hi. msimpl.
  rewrite list_lookup_insert_eq by (unfold DOCS_SIZE in *; lia).
  msimpl. rewrite lookup_insert_eq. msimpl.
  rewrite wrap32_in_int
    by (unfold in_int, INT_MIN, INT_MAX, DOCS_SIZE in *; lia).
  unfold NewDocument_lines. wnorm; try reflexivity.
  - rewrite !string_app_assoc. reflexivity.
  - rewrite <- !(assoc_L (++)). reflexivity.
Qed.


Lemma name_of_insert_eq (ds : gmap loc Document) (a : loc) (d : Document)
    (s : string) :
  read_cstr (name d) = Ok s -> name_of (<[a := d]> ds) a = Some s.
Proof. intros Hr. unfold name_of. rewrite lookup_insert_eq, Hr. reflexivity. Qed.

Lemma name_of_insert_ne (ds : gmap loc Document) (a p : loc) (d : Document) :
  p <> a -> name_of (<[a := d]> ds) p = name_of ds p.
Proof.
  intros Hne. unfold name_of. rewrite lookup_insert_ne by congruence.
  reflexivity.
Qed.

Lemma name_of_Some (ds : gmap loc Document) (p : loc) (s : string) :
  name_of ds p = Some s ->
  exists d, ds !! p = Some d /\ read_cstr (name d) = Ok s.
Proof.
  unfold name_of. destruct (ds !! p) as [d|]; [|discriminate].
  destruct (read_cstr (name d)) as [s'|] eqn:Hr; [|discriminate].
  intros [= <-]. eauto.
Qed.

Lemma names_kept_by_insert (ds : gmap loc Document) (a : loc) (d : Document)
    (ps : list loc) (fns : list string) :
  (forall p, p ∈ ps -> p <> a) ->
  Forall2 (fun p s => name_of ds p = Some s) ps fns ->
  Forall2 (fun p s => name_of (<[a := d]> ds) p = Some s) ps fns.
Proof.
  intros Hne HF. induction HF as [|p s ps fns Hp HF IH]; constructor.
  - rewrite name_of_insert_ne; [exact Hp|]. apply Hne. left.
  - apply IH. intros q Hq. apply Hne. right. exact Hq.
Qed.

Lemma docs_writes_app (t1 t2 : list Event) :
  docs_writes (t1 ++ t2) = docs_writes t1 ++ docs_writes t2.
Proof.
  induction t1 as [|e t1 IH]; [reflexivity|].
  destruct e; simpl; rewrite IH; reflexivity.
Qed.

(** One more call on a registry of [fns] that is not yet full. *)
Lemma NewDocument_registered (this : Application) (fn : string) (w : World)
    (fns : list string) :
  registered this w fns -> (length fns < Z.to_nat DOCS_SIZE)%nat ->
  valid_name fn ->
  exists (this' : Application) (w' : World),
    NewDocument this fn w = Ok (this', w')
    /\ registered this' w' (fns ++ [fn])
    /\ docs_writes (trace w') =
         docs_writes (trace w) ++ [Z.of_nat (length fns)]
    /\ stdout w' = stdout w +:+ NewDocument_lines
    /\ total_ w' = total_ w.
Proof.
  intros (Hidx & Hlen & ps & Hreg & Hnd & Hnames) Hroom Hfn.
  assert (0 <= _index this < DOCS_SIZE) as Hi
    by (unfold DOCS_SIZE in *; lia).
  destruct (NewDocument_run this fn w Hi Hlen Hfn) as (buf & _ & Hread & Hrun).
  eexists _, _. split; [exact Hrun|].
  set (d := alloc (live w)).
  assert (forall p, p ∈ ps -> p <> d) as Hfresh.
  { intros p Hp ->.
    apply list_elem_of_lookup in Hp as [i Hp].
    destruct (Forall2_lookup_l _ _ _ _ _ Hnames Hp) as (s & _ & Hs).
    apply name_of_Some in Hs as (d' & Hd' & _).
    unfold d in Hd'. rewrite alloc_not_document in Hd'. discriminate. }
  split; [|split; [|split]].
  - split; [|split]; wsimpl.
    + rewrite length_app, Hidx. simpl. lia.
    + rewrite length_insert. exact Hlen.
    + exists (ps ++ [d]). split; [|split].
      * unfold registry in *. wsimpl.
        replace (Z.to_nat (_index this + 1)) with (S (Z.to_nat (_index this)))
          by lia.
        erewrite take_S_r
          by (apply list_lookup_insert_eq; unfold DOCS_SIZE in *; lia).
        rewrite take_insert_ge by lia. rewrite Hreg, fmap_app. reflexivity.
      * apply NoDup_app. split; [exact Hnd|]. split; [|apply NoDup_singleton].
        intros p Hp Hin. apply list_elem_of_singleton in Hin.
        exact (Hfresh p Hp Hin).
      * apply Forall2_app.
        -- apply names_kept_by_insert; [exact Hfresh | exact Hnames].
        -- constructor; [|constructor].
           apply name_of_insert_eq. exact Hread.
  - wsimpl. rewrite docs_writes_app. simpl. rewrite Hidx. reflexivity.
  - reflexivity.
  - reflexivity.
Qed.

Lemma NewDocuments_run (names : list string) :
  forall (this : Application) (w : World) (fns : list string),
    registered this w fns ->
    (length fns + length names <= Z.to_nat DOCS_SIZE)%nat ->
    Forall valid_name names ->
    exists (this' : Application) (w' : World),
      NewDocuments this names w = Ok (this', w')
      /\ registered this' w' (fns ++ names)
      /\ docs_writes (trace w') =
           docs_writes (trace w)
           ++ seqZ (Z.of_nat (length fns)) (Z.of_nat (length names)).
Proof.
  induction names as [|fn names IH]; intros this w fns Hreg Hroom Hvalid.
  - exists this, w. rewrite !app_nil_r.
    split; [reflexivity|]. split; [exact Hreg | reflexivity].
  - apply Forall_cons in Hvalid as [Hfn Hvalid]. simpl in Hroom.
    destruct (NewDocument_registered this fn w fns Hreg ltac:(lia) Hfn)
      as (this1 & w1 & Hrun1 & Hreg1 & Hwr1 & _).
    destruct (IH this1 w1 (fns ++ [fn]) Hreg1) as (this' & w' & Hrun & Hreg' & Hwr).
    { rewrite length_app. simpl. lia. }
    { exact Hvalid. }
    exists this', w'. split; [|split].
    + simpl. unfold bind. rewrite Hrun1. exact Hrun.
    + rewrite <- (assoc_L (++)) in Hreg'. exact Hreg'.
    + rewrite Hwr, Hwr1, <- (assoc_L (++)). f_equal.
      rewrite length_app. simpl length.
      rewrite (seqZ_cons _ (Z.of_nat (S _))) by lia. simpl app. f_equal.
      f_equal; lia.
Qed.


Lemma MyApplication_ctor_run (w : World) :
  MyApplication_ctor w =
    Ok (new_application,
        set_stdout (fun out => out +:+ "Application: ctor" +:+ endl
                                   +:+ "MyApplication: ctor" +:+ endl) w).
Proof.
  unfold MyApplication_ctor, Application_ctor. msimpl.
  wnorm; try reflexivity. rewrite !string_app_assoc. reflexivity.
Qed.

Lemma new_application_registered (w : World) : registered new_application w [].
Proof.
  split; [reflexivity|]. split; [apply length_replicate|].
  exists []. split; [reflexivity|]. split; constructor.
Qed.

Lemma ReportDocs_loop (docs : list (option loc)) (ps : list loc) :
  forall (fns : list string) (k : nat) (w : World),
    Forall2 (fun p s => name_of (documents w) p = Some s) ps fns ->
    (forall i p, ps !! i = Some p -> docs !! (k + i)%nat = Some (Some p)) ->
    (k + length ps <= Z.to_nat DOCS_SIZE)%nat ->
    exists w',
      for_each (seqZ (Z.of_nat k) (Z.of_nat (length ps)))
        (fun i => d <- docs_load docs i ;;
                  buf <- GetName d ;;
                  print "   " ;; print_cstr buf ;; print endl) w
        = Ok (tt, w')
      /\ stdout w' = stdout w +:+ report_lines fns
      /\ same_objects w w'.
Proof.
  induction ps as [|p ps IH]; intros fns k w Hnames Hdocs Hroom.
  - apply Forall2_nil_inv_l in Hnames as ->. exists w.
    split; [reflexivity|]. split; [|repeat split].
    simpl. rewrite string_app_nil_r. reflexivity.
  - apply Forall2_cons_inv_l in Hnames as (s & fns' & Hs & Hnames & ->).
    apply name_of_Some in Hs as (d & Hd & Hread).
    simpl in Hroom.
    rewrite seqZ_cons by (simpl length; lia).
    replace (Z.succ (Z.of_nat k)) with (Z.of_nat (S k)) by lia.
    replace (Z.pred (Z.of_nat (length (p :: ps))))
      with (Z.of_nat (length ps)) by (simpl length; lia).
    pose proof (Hdocs 0%nat p eq_refl) as Hk. rewrite Nat.add_0_r in Hk.
    set (w1 := {| stdout := stdout w +:+ "   " +:+ s +:+ endl;
                  trace := trace w ++ [Call_GetName p];
                  pizzas := pizzas w; builders := builders w;
                  documents := documents w; shapes := shapes w;
                  total_ := total_ w |}).
    destruct (IH fns' (S k) w1) as (w' & Hloop & Hout & Hsame).
    { exact Hnames. }
    { intros i q Hq. replace (S k + i)%nat with (k + S i)%nat by lia.
      apply Hdocs. exact Hq. }
    { lia. }
    exists w'. split; [|split].
    + cbn [for_each]. unfold bind at 1.
      replace ((d0 <- docs_load docs (Z.of_nat k) ;;
                buf <- GetName d0 ;;
                print "   " ;; print_cstr buf ;; print endl) w)
        with (Ok (tt, w1)); [exact Hloop|].
      unfold docs_load, GetName, Document_load, print_cstr.
      rewrite decide_True by (unfold DOCS_SIZE in *; lia).
      rewrite Nat2Z.id, Hk. msimpl. rewrite Hd. msimpl. rewrite Hread.
      unfold w1. wnorm; try reflexivity.
      rewrite !string_app_assoc. reflexivity.
    + rewrite Hout. unfold w1. wsimpl. simpl report_lines.
      rewrite !string_app_assoc. reflexivity.
    + destruct Hsame as (? & ? & ? & ? & ?). repeat split; assumption.
Qed.

Lemma ReportDocs_run (this : Application) (w : World) (fns : list string) :
  registered this w fns ->
  exists w',
    ReportDocs this w = Ok (tt, w')
    /\ stdout w' = stdout w +:+ "Application: ReportDocs()" +:+ endl
                            +:+ report_lines fns
    /\ same_objects w w'.
Proof.
  intros (Hidx & Hlen & ps & Hreg & _ & Hnames).
  pose proof (Forall2_length _ _ _ Hnames) as Hl.
  destruct (ReportDocs_loop (_docs this) ps fns 0%nat
              (set_stdout (fun out => out +:+ "Application: ReportDocs()" +:+ endl) w))
    as (w' & Hloop & Hout & Hsame).
  - exact Hnames.
  - intros i p Hp. simpl.
    assert (i < length ps)%nat as Hlt by (eapply lookup_lt_Some; exact Hp).
    rewrite <- (lookup_take_lt _ (Z.to_nat (_index this))) by lia.
    fold (registry this). rewrite Hreg, list_lookup_fmap, Hp. reflexivity.
  - assert (length (registry this) = length ps) as Hlr
      by (rewrite Hreg; apply length_fmap).
    unfold registry in Hlr. rewrite length_take in Hlr. lia.
  - exists w'. split; [|split].
    + unfold ReportDocs. unfold bind at 1. unfold print at 1, modify at 1.
      rewrite Hidx, <- Hl. exact Hloop.
    + rewrite Hout. wsimpl. rewrite !string_app_assoc. reflexivity.
    + exact Hsame.
Qed.


Lemma fresh_application_run_registered (names : list string) (w : World) :
  (length names <= Z.to_nat DOCS_SIZE)%nat -> Forall valid_name names ->
  exists (this' : Application) (w' : World),
    fresh_application_run names w = Ok (this', w')
    /\ registered this' w' names
    /\ docs_writes (trace w') =
         docs_writes (trace w) ++ seqZ 0 (Z.of_nat (length names)).
Proof.
  intros Hroom Hvalid. unfold fresh_application_run, bind.
  rewrite MyApplication_ctor_run.
  destruct (NewDocuments_run names new_application
              (set_stdout (fun out => out +:+ "Application: ctor" +:+ endl
                                         +:+ "MyApplication: ctor" +:+ endl) w)
              [] (new_application_registered _) Hroom Hvalid)
    as (this' & w' & Hrun & Hreg & Hwr).
  exists this', w'. split; [exact Hrun|]. split; [exact Hreg | exact Hwr].
Qed.




(** C2 (as amended): for at most 10 names, each a C string of fewer than
    20 characters, a new application that is given the names one by one
    ends with its index at their number and with that many pairwise
    distinct documents in the first cells of the registry, holding the
    names in call order; [ReportDocs] then prints its banner and the names,
    one per line, in that order. *)
Theorem NewDocument_registers_names_in_call_order
    (names : list string) (w : World) :
  (length names <= 10)%nat ->
  Forall (fun fn => is_cstring fn = true /\ (String.length fn < 20)%nat) names ->
  exists (this' : Application) (w' : World),
    fresh_application_run names w = Ok (this', w')
    /\ _index this' = Z.of_nat (length names)
    /\ (exists ps : list loc,
          registry this' = Some <$> ps /\ NoDup ps
          /\ Forall2 (fun p fn => name_of (documents w') p = Some fn) ps names)
    /\ exists w'',
         ReportDocs this' w' = Ok (tt, w'')
         /\ stdout w'' = stdout w' +:+ "Application: ReportDocs()" +:+ endl
                                   +:+ report_lines names.
Proof.
  intros Hroom Hvalid.
  destruct (fresh_application_run_registered names w Hroom Hvalid)
    as (this' & w' & Hrun & Hreg & _).
  exists this', w'. split; [exact Hrun|].
  destruct (ReportDocs_run this' w' names Hreg) as (w'' & Hrep & Hout & _).
  destruct Hreg as (Hidx & _ & Hps).
  split; [exact Hidx|]. split; [exact Hps|].
  exists w''. split; [exact Hrep | exact Hout].
Qed.

(** C6 (as amended): a call made while the index is below 10, with a C
    string of fewer than 20 characters, enters the hook once, stores the
    pointer the hook returned in the cell at the index, moves the index up
    by one and opens that same document; nothing else is entered in
    between, and the three lines are printed in that order. *)
Theorem NewDocument_hook_then_append_then_Open
    (this : Application) (fn : string) (w : World) :
  0 <= _index this < 10 ->
  length (_docs this) = 10%nat ->
  is_cstring fn = true -> (String.length fn < 20)%nat ->
  exists (d : loc) (w1 : World) (this' : Application) (w' : World),
    CreateDocument this fn
      (set_stdout (fun out => out +:+ "Application: NewDocument()" +:+ endl) w)
      = Ok (d, w1)
    /\ documents w !! d = None
    /\ NewDocument this fn w = Ok (this', w')
    /\ trace w' = trace w ++ [Call_CreateDocument fn;
                              Write_docs (_index this) d;
                              Call_Open d]
    /\ _index this' = _index this + 1
    /\ _docs this' = <[Z.to_nat (_index this) := Some d]> (_docs this)
    /\ registry this' = registry this ++ [Some d]
    /\ documents w' = documents w1
    /\ name_of (documents w') d = Some fn
    /\ stdout w' = stdout w +:+ "Application: NewDocument()" +:+ endl
                           +:+ "   MyApplication: CreateDocument()" +:+ endl
                           +:+ "   MyDocument: Open()" +:+ endl.
Proof.
  intros Hi Hlen Hc Hshort.
  destruct (NewDocument_run this fn w Hi Hlen (conj Hc Hshort))
    as (buf & Hbuf & Hread & Hrun).
  eexists (alloc (live w)), _, _, _.
  split.
  { unfold CreateDocument, MyApplication_CreateDocument, new_MyDocument.
    destruct (application_class this). msimpl. rewrite Hbuf. msimpl.
    reflexivity. }
  split; [apply alloc_not_document|].
  split; [exact Hrun|].
  split; [reflexivity|]. split; [reflexivity|]. split; [reflexivity|].
  split.
  { unfold registry. wsimpl.
    replace (Z.to_nat (_index this + 1)) with (S (Z.to_nat (_index this)))
      by lia.
    erewrite take_S_r by (apply list_lookup_insert_eq; lia).
    rewrite take_insert_ge by lia. reflexivity. }
  split; [reflexivity|].
  split; [wsimpl; apply name_of_insert_eq; exact Hread|].
  reflexivity.
Qed.


End FactoryMethod_proofs.

(** ** Abstract Factory *)

Lemma wrap32_range (z : Z) : in_int (wrap32 z).
Proof.
  unfold in_int, INT_MIN, INT_MAX, wrap32.
  change (2 ^ 31) with 2147483648. change (2 ^ 32) with 4294967296.
  pose proof (Z.mod_pos_bound (z + 2147483648) 4294967296 ltac:(lia)). lia.
Qed.

Lemma wrap32_wrap32_add (x k : Z) : wrap32 (wrap32 x + k) = wrap32 (x + k).
Proof.
  unfold wrap32. f_equal.
  replace ((x + 2 ^ 31) mod 2 ^ 32 - 2 ^ 31 + k + 2 ^ 31)
    with ((x + 2 ^ 31) mod 2 ^ 32 + k) by lia.
  rewrite Zplus_mod_idemp_l. f_equal. lia.
Qed.

Section AbstractFactory_proofs.
Context `{!Allocator}.

Lemma new_Shape_run (c : ShapeClass) (w : World) :
  new_Shape c w = Ok (alloc (live w), after_new_Shape c w).
Proof. reflexivity. Qed.

Lemma after_new_Shape_new (c : ShapeClass) (w : World) :
  shapes (after_new_Shape c w) !! alloc (live w) =
    Some {| shape_class := c; id_ := total_ w |}.
Proof. unfold after_new_Shape. wsimpl. apply lookup_insert_eq. Qed.

Lemma after_new_Shape_old (c : ShapeClass) (w : World) (p : loc) (s : Shape) :
  shapes w !! p = Some s ->
  shapes (after_new_Shape c w) !! p = Some s /\ alloc (live w) <> p.
Proof.
  intros Hp. assert (alloc (live w) <> p) as Hne.
  { intros <-. rewrite alloc_not_shape in Hp. discriminate. }
  split; [|exact Hne]. unfold after_new_Shape. wsimpl.
  rewrite lookup_insert_ne by exact Hne. exact Hp.
Qed.

Lemma draw_run (this : loc) (s : Shape) (w : World) :
  shapes w !! this = Some s ->
  draw this w = Ok (tt, set_stdout (fun out => out +:+ draw_line s) w).
Proof.
  intros Hs.
  unfold draw, Circle_draw, Square_draw, Ellipse_draw, Rectangle_draw,
    Shape_load, draw_line.
  msimpl. rewrite Hs. destruct (shape_class s); msimpl; rewrite Hs;
    reflexivity.
Qed.

Lemma new_Shapes_run (cs : list ShapeClass) :
  forall w : World,
    in_int (total_ w) ->
    exists (ps : list loc) (w' : World),
      new_Shapes cs w = Ok (ps, w')
      /\ length ps = length cs
      /\ NoDup ps
      /\ (forall p, p ∈ ps -> shapes w !! p = None)
      /\ (forall p, p ∉ ps -> shapes w' !! p = shapes w !! p)
      /\ (forall i p, ps !! i = Some p ->
            exists c, cs !! i = Some c
              /\ shapes w' !! p =
                   Some {| shape_class := c;
                           id_ := wrap32 (total_ w + Z.of_nat i) |})
      /\ total_ w' = wrap32 (total_ w + Z.of_nat (length cs)).
Proof.
  induction cs as [|c cs IH]; intros w Hin.
  - exists [], w. split; [reflexivity|]. split; [reflexivity|].
    split; [constructor|]. split; [intros p Hp; inversion Hp|].
    split; [reflexivity|]. split; [intros i p Hp; discriminate|].
    simpl. rewrite Z.add_0_r, wrap32_in_int by exact Hin. reflexivity.
  - set (a := alloc (live w)).
    set (w1 := after_new_Shape c w).
    destruct (IH w1 (wrap32_range _))
      as (ps & w' & Hrun & Hlen & Hnd & Hnew & Hframe & Hids & Htot).
    assert (a ∉ ps) as Ha.
    { intros Hin'. specialize (Hnew a Hin').
      pose proof (after_new_Shape_new c w) as Hf.
      change (shapes w1 !! a = Some {| shape_class := c; id_ := total_ w |})
        in Hf.
      rewrite Hf in Hnew. discriminate. }
    exists (a :: ps), w'. split; [|split; [|split; [|split; [|split; [|split]]]]].
    + cbn [new_Shapes]. unfold bind at 1. rewrite new_Shape_run.
      subst w1. unfold bind. rewrite Hrun. reflexivity.
    + simpl. rewrite Hlen. reflexivity.
    + apply NoDup_cons. split; assumption.
    + intros p Hp. apply elem_of_cons in Hp as [->|Hp].
      * apply alloc_not_shape.
      * specialize (Hnew p Hp). unfold w1, after_new_Shape in Hnew.
        wsimpl in Hnew.
        apply lookup_insert_None in Hnew as [Hnone _]. exact Hnone.
    + intros p Hp. apply not_elem_of_cons in Hp as [Hne Hp].
      rewrite (Hframe p Hp). unfold w1, after_new_Shape. wsimpl.
      apply lookup_insert_ne. subst a. congruence.
    + intros [|i] p Hp; simpl in Hp.
      * injection Hp as <-. exists c. split; [reflexivity|].
        rewrite (Hframe a Ha).
        rewrite Z.add_0_r, wrap32_in_int by exact Hin.
        apply after_new_Shape_new.
      * destruct (Hids i p Hp) as (c' & Hc' & Hs). exists c'.
        split; [exact Hc'|]. rewrite Hs. unfold w1, after_new_Shape. wsimpl.
        rewrite wrap32_wrap32_add. do 3 f_equal. lia.
    + rewrite Htot. unfold w1, after_new_Shape. wsimpl.
      rewrite wrap32_wrap32_add. f_equal. simpl length. lia.
Qed.

(** C3 (as amended): shapes constructed one after the other while the
    counter stays within [int] (from a new process: the first 2^31 shapes)
    are new, distinct objects whose identifiers are the successive values
    of the counter; so a shape constructed later has a strictly larger
    identifier, also than every shape that existed before, whose
    identifier is left as it was.  The constructions move the counter up
    by their number and nothing resets it. *)
Theorem shape_ids_increase_while_counter_in_int
    (cs : list ShapeClass) (w : World) :
  in_int (total_ w) ->
  (forall p s, shapes w !! p = Some s -> id_ s < total_ w) ->
  total_ w + Z.of_nat (length cs) <= INT_MAX + 1 ->
  exists (ps : list loc) (w' : World),
    new_Shapes cs w = Ok (ps, w')
    /\ length ps = length cs
    /\ NoDup ps
    /\ (forall p, p ∈ ps -> shapes w !! p = None)
    /\ (forall p s, shapes w !! p = Some s -> shapes w' !! p = Some s)
    /\ (forall i p, ps !! i = Some p ->
          id_of w' p = Some (total_ w + Z.of_nat i))
    /\ (forall i j p q x y,
          (i < j)%nat -> ps !! i = Some p -> ps !! j = Some q ->
          id_of w' p = Some x -> id_of w' q = Some y -> x < y)
    /\ (forall p s q y,
          shapes w !! p = Some s -> q ∈ ps -> id_of w' q = Some y ->
          id_ s < y)
    /\ (forall p s, shapes w' !! p = Some s ->
          id_ s < total_ w + Z.of_nat (length cs))
    /\ total_ w' = wrap32 (total_ w + Z.of_nat (length cs)).
Proof.
  intros Hin Hbelow Hroom.
  destruct (new_Shapes_run cs w Hin)
    as (ps & w' & Hrun & Hlen & Hnd & Hnew & Hframe & Hids & Htot).
  assert (forall i p, ps !! i = Some p ->
            id_of w' p = Some (total_ w + Z.of_nat i)) as Hid.
  { intros i p Hp. destruct (Hids i p Hp) as (c & _ & Hs).
    unfold id_of. rewrite Hs. simpl. f_equal.
    apply lookup_lt_Some in Hp.
    apply wrap32_in_int. unfold in_int, INT_MIN, INT_MAX in *. lia. }
  assert (forall p s, shapes w !! p = Some s -> shapes w' !! p = Some s)
    as Hkeep.
  { intros p s Hs. rewrite Hframe; [exact Hs|].
    intros Hp. rewrite (Hnew p Hp) in Hs. discriminate. }
  exists ps, w'. split; [exact Hrun|]. split; [exact Hlen|].
  split; [exact Hnd|]. split; [exact Hnew|]. split; [exact Hkeep|].
  split; [exact Hid|].
  split; [|split; [|split; [|exact Htot]]].
  - intros i j p q x y Hij Hp Hq Hx Hy.
    rewrite (Hid i p Hp) in Hx. rewrite (Hid j q Hq) in Hy.
    injection Hx as <-. injection Hy as <-. lia.
  - intros p s q y Hs Hq Hy.
    apply list_elem_of_lookup in Hq as [i Hq].
    rewrite (Hid i q Hq) in Hy. injection Hy as <-.
    specialize (Hbelow p s Hs). lia.
  - intros p s Hs. destruct (decide (p ∈ ps)) as [Hp|Hp].
    + apply list_elem_of_lookup in Hp as [i Hp].
      pose proof (Hid i p Hp) as Hi. unfold id_of in Hi. rewrite Hs in Hi.
      injection Hi as Hi. apply lookup_lt_Some in Hp. lia.
    + rewrite (Hframe p Hp) in Hs. specialize (Hbelow p s Hs). lia.
Qed.

Lemma three_new_Shapes (c0 c1 c2 : ShapeClass) (w : World) :
  exists (a0 a1 a2 : loc) (w' : World),
    (s0 <- new_Shape c0 ;; s1 <- new_Shape c1 ;; s2 <- new_Shape c2 ;;
     ret [s0; s1; s2]) w = Ok ([a0; a1; a2], w')
    /\ NoDup [a0; a1; a2]
    /\ shapes w' !! a0 = Some {| shape_class := c0; id_ := total_ w |}
    /\ shapes w' !! a1 =
         Some {| shape_class := c1; id_ := wrap32 (total_ w + 1) |}
    /\ shapes w' !! a2 =
         Some {| shape_class := c2;
                 id_ := wrap32 (wrap32 (total_ w + 1) + 1) |}.
Proof.
  set (w0 := after_new_Shape c0 w).
  set (w1 := after_new_Shape c1 w0).
  set (w2 := after_new_Shape c2 w1).
  pose proof (after_new_Shape_new c0 w) as H0. fold w0 in H0.
  pose proof (after_new_Shape_new c1 w0) as H1. fold w1 in H1.
  pose proof (after_new_Shape_new c2 w1) as H2. fold w2 in H2.
  destruct (after_new_Shape_old c1 w0 _ _ H0) as [H01 Hne10]. fold w1 in H01.
  destruct (after_new_Shape_old c2 w1 _ _ H01) as [H02 Hne20]. fold w2 in H02.
  destruct (after_new_Shape_old c2 w1 _ _ H1) as [H12 Hne21]. fold w2 in H12.
  exists (alloc (live w)), (alloc (live w0)), (alloc (live w1)), w2.
  split; [reflexivity|]. split.
  { apply NoDup_cons. split.
    - intros Hin. apply elem_of_cons in Hin as [Heq|Hin]; [congruence|].
      apply list_elem_of_singleton in Hin. congruence.
    - apply NoDup_cons. split; [|apply NoDup_singleton].
      intros Hin. apply list_elem_of_singleton in Hin. congruence. }
  split; [exact H02|]. split; [exact H12 | exact H2].
Qed.

(** C4: either factory's two creation functions return, from any state,
    the address of a new object (one that was not live before) of the
    class fixed by the factory's own class, and leave every other shape
    alone; curved, straight, curved on one factory gives three distinct
    shapes of the classes that mapping prescribes. *)
Theorem factories_create_their_fixed_classes (this : Factory) (w : World) :
  (exists (a : loc) (w' : World),
     createCurvedInstance this w = Ok (a, w')
     /\ (a ∉ live w)
     /\ shapes w' =
          <[a := {| shape_class := match this with
                                   | SimpleShapeFactory => Circle
                                   | RobustShapeFactory => Ellipse
                                   end;
                    id_ := total_ w |}]> (shapes w))
  /\ (exists (a : loc) (w' : World),
     createStraightInstance this w = Ok (a, w')
     /\ (a ∉ live w)
     /\ shapes w' =
          <[a := {| shape_class := match this with
                                   | SimpleShapeFactory => Square
                                   | RobustShapeFactory => Rectangle
                                   end;
                    id_ := total_ w |}]> (shapes w))
  /\ (exists (a0 a1 a2 : loc) (w' : World),
     three_shapes this w = Ok ([a0; a1; a2], w')
     /\ NoDup [a0; a1; a2]
     /\ class_of w' <$> [a0; a1; a2] =
          match this with
          | SimpleShapeFactory => [Some Circle; Some Square; Some Circle]
          | RobustShapeFactory => [Some Ellipse; Some Rectangle; Some Ellipse]
          end).
Proof.
  split; [|split].
  - destruct this; (eexists _, _; split; [apply new_Shape_run|]);
      (split; [apply alloc_fresh | reflexivity]).
  - destruct this; (eexists _, _; split; [apply new_Shape_run|]);
      (split; [apply alloc_fresh | reflexivity]).
  - destruct this; unfold three_shapes, createCurvedInstance,
      createStraightInstance.
    + destruct (three_new_Shapes Circle Square Circle w)
        as (a0 & a1 & a2 & w' & Hrun & Hnd & H0 & H1 & H2).
      exists a0, a1, a2, w'. split; [exact Hrun|]. split; [exact Hnd|].
      unfold class_of. cbn [fmap list_fmap]. rewrite H0, H1, H2. reflexivity.
    + destruct (three_new_Shapes Ellipse Rectangle Ellipse w)
        as (a0 & a1 & a2 & w' & Hrun & Hnd & H0 & H1 & H2).
      exists a0, a1, a2, w'. split; [exact Hrun|]. split; [exact Hnd|].
      unfold class_of. cbn [fmap list_fmap]. rewrite H0, H1, H2. reflexivity.
Qed.

End AbstractFactory_proofs.

(** ** The whole program *)

Lemma bind_run {A B : Type} (m : M A) (k : A -> M B) (w w1 : World) (a : A) :
  m w = Ok (a, w1) -> (x <- m ;; k x) w = k a w1.
Proof. intros Hm. unfold bind. rewrite Hm. reflexivity. Qed.

Lemma print_run (s : string) (w : World) :
  print s w = Ok (tt, set_stdout (fun out => out +:+ s) w).
Proof. reflexivity. Qed.

Section main_proofs.
Context `{!Allocator}.

Lemma PizzaBuilder_ctor_run (c : BuilderClass) (w : World) :
  PizzaBuilder_ctor c w =
    Ok (alloc (live w),
        set_builders <[alloc (live w) := {| builder_class := c;
                                            m_pizza := None |}]> w).
Proof. reflexivity. Qed.

Lemma main_run :
  exists w : World,
    main initial_world = Ok (0, w) /\ stdout w = unlines main_stdout_lines.
Proof.
  unfold main. cbv zeta.
  erewrite bind_run by apply print_run.
  set (w1 := set_stdout _ initial_world).
  erewrite bind_run by apply PizzaBuilder_ctor_run.
  set (hb := alloc (live w1)). set (w2 := set_builders _ w1).
  erewrite bind_run by apply PizzaBuilder_ctor_run.
  set (sb := alloc (live w2)). set (w3 := set_builders _ w2).
  assert (builders w2 !! hb =
            Some {| builder_class := HawaiianPizzaBuilder; m_pizza := None |})
    as Hhb2 by (unfold w2; wsimpl; apply lookup_insert_eq).
  assert (sb <> hb) as Hne.
  { intros Heq. pose proof (alloc_not_builder w2) as Hf. fold sb in Hf.
    rewrite Heq in Hf. congruence. }
  assert (builders w3 !! hb =
            Some {| builder_class := HawaiianPizzaBuilder; m_pizza := None |})
    as Hhb by (unfold w3; wsimpl; rewrite lookup_insert_ne by exact Hne;
               exact Hhb2).
  assert (builders w3 !! sb =
            Some {| builder_class := SpicyPizzaBuilder; m_pizza := None |})
    as Hsb by (unfold w3; wsimpl; apply lookup_insert_eq).
  (* the Hawaiian pizza *)
  erewrite bind_run
    by (apply (makePizza_run _ hb _ w3 Hhb); intros old Ho; discriminate).
  set (w4 := after_makePizza hb _ w3).
  assert (builders w4 !! hb =
            Some {| builder_class := HawaiianPizzaBuilder;
                    m_pizza := Some (alloc (live w3)) |}) as Hhb4
    by (unfold w4, after_makePizza; wsimpl; apply lookup_insert_eq).
  assert (pizzas w4 !! alloc (live w3) = Some (built HawaiianPizzaBuilder))
    as Hp4 by (unfold w4, after_makePizza; wsimpl; apply lookup_insert_eq).
  assert (builders w4 !! sb =
            Some {| builder_class := SpicyPizzaBuilder; m_pizza := None |})
    as Hsb4.
  { unfold w4, after_makePizza. wsimpl.
    rewrite lookup_insert_ne by congruence. exact Hsb. }
  erewrite bind_run
    by exact (openPizza_run {| m_pizzaBuilder := Some hb |} hb _ _ _ w4
                eq_refl Hhb4 eq_refl Hp4).
  set (w5 := set_stdout _ (set_trace _ w4)).
  (* the spicy pizza *)
  erewrite bind_run
    by (apply (makePizza_run _ sb _ w5 Hsb4); intros old Ho; discriminate).
  set (w6 := after_makePizza sb _ w5).
  assert (builders w6 !! sb =
            Some {| builder_class := SpicyPizzaBuilder;
                    m_pizza := Some (alloc (live w5)) |}) as Hsb6
    by (unfold w6, after_makePizza; wsimpl; apply lookup_insert_eq).
  assert (pizzas w6 !! alloc (live w5) = Some (built SpicyPizzaBuilder))
    as Hp6 by (unfold w6, after_makePizza; wsimpl; apply lookup_insert_eq).
  erewrite bind_run
    by exact (openPizza_run {| m_pizzaBuilder := Some sb |} sb _ _ _ w6
                eq_refl Hsb6 eq_refl Hp6).
  set (w7 := set_stdout _ (set_trace _ w6)).
  (* two documents *)
  erewrite bind_run by apply print_run.
  set (w8 := set_stdout _ w7).
  erewrite bind_run by apply MyApplication_ctor_run.
  set (w9 := set_stdout _ w8).
  destruct (NewDocument_registered new_application "foo" w9 []
              (new_application_registered _))
    as (app1 & w10 & Hrun10 & Hreg10 & _ & Hout10 & Htot10);
    [unfold DOCS_SIZE; simpl; lia
    | split; [reflexivity | unfold NAME_SIZE; simpl; lia] |].
  rewrite (bind_run _ _ _ _ _ Hrun10).
  destruct (NewDocument_registered app1 "bar" w10 ["foo"] Hreg10)
    as (app2 & w11 & Hrun11 & Hreg11 & _ & Hout11 & Htot11);
    [unfold DOCS_SIZE; simpl; lia
    | split; [reflexivity | unfold NAME_SIZE; simpl; lia] |].
  rewrite (bind_run _ _ _ _ _ Hrun11).
  destruct (ReportDocs_run app2 w11 _ Hreg11)
    as (w12 & Hrun12 & Hout12 & _ & _ & _ & _ & Htot12).
  rewrite (bind_run _ _ _ _ _ Hrun12).
  (* three shapes *)
  erewrite bind_run by apply print_run.
  set (w13 := set_stdout _ w12).
  assert (total_ w13 = 0) as Htot13
    by (unfold w13; wsimpl; rewrite Htot12, Htot11, Htot10; reflexivity).
  cbn [createCurvedInstance createStraightInstance].
  erewrite bind_run by apply new_Shape_run.
  set (w14 := after_new_Shape Circle w13).
  erewrite bind_run by apply new_Shape_run.
  set (w15 := after_new_Shape Square w14).
  erewrite bind_run by apply new_Shape_run.
  set (w16 := after_new_Shape Circle w15).
  pose proof (after_new_Shape_new Circle w13) as H0. fold w14 in H0.
  pose proof (after_new_Shape_new Square w14) as H1. fold w15 in H1.
  pose proof (after_new_Shape_new Circle w15) as H2. fold w16 in H2.
  apply (after_new_Shape_old Square w14) in H0 as [H0 _]. fold w15 in H0.
  apply (after_new_Shape_old Circle w15) in H0 as [H0 _]. fold w16 in H0.
  apply (after_new_Shape_old Circle w15) in H1 as [H1 _]. fold w16 in H1.
  assert (total_ w14 = 1) as Htot14
    by (unfold w14, after_new_Shape; wsimpl; rewrite Htot13; reflexivity).
  assert (total_ w15 = 2) as Htot15
    by (unfold w15, after_new_Shape; wsimpl; rewrite Htot14; reflexivity).
  rewrite Htot13 in H0. rewrite Htot14 in H1. rewrite Htot15 in H2.
  change (seqZ 0 3) with [0; 1; 2]. cbn [for_each].
  change (Z.to_nat 0) with 0%nat. change (Z.to_nat 1) with 1%nat.
  change (Z.to_nat 2) with 2%nat. cbn [lookup list_lookup deref].
  unfold bind, ret.
  rewrite (draw_run _ _ w16 H0). set (w17 := set_stdout _ w16).
  rewrite (draw_run _ _ w17 H1). set (w18 := set_stdout _ w17).
  rewrite (draw_run _ _ w18 H2). set (w19 := set_stdout _ w18).
  exists w19. split; [reflexivity|].
  unfold w19, w18, w17, w16, w15, w14, w13, after_new_Shape. wsimpl.
  rewrite Hout12, Hout11, Hout10.
  unfold w9, w8, w7, w6, w5, w4, w3, w2, w1, after_makePizza. wsimpl.
  reflexivity.
Qed.

End main_proofs.

(** C9: whichever addresses the allocator hands out, a run of [main] from
    the initial state returns 0 and writes the same fixed sequence of
    lines; two runs write the same stream.  [main] takes no arguments and
    reads nothing. *)
Theorem main_stdout_is_fixed (A1 A2 : Allocator) :
  exists w1 w2 : World,
    @main A1 initial_world = Ok (0, w1)
    /\ @main A2 initial_world = Ok (0, w2)
    /\ stdout w1 = unlines main_stdout_lines
    /\ stdout w2 = stdout w1.
Proof.
  destruct (@main_run A1) as (w1 & Hrun1 & Hout1).
  destruct (@main_run A2) as (w2 & Hrun2 & Hout2).
  exists w1, w2. split; [exact Hrun1|]. split; [exact Hrun2|].
  split; [exact Hout1 | congruence].
Qed.

(** * Concrete runs *)

Lemma makePizza_yields_variant_literals_witness :
  exists (this' : Cook) (w' : World) (a : loc),
    makePizza {| m_pizzaBuilder := None |} 1%positive idle_kitchen
      = Ok (this', w')
    /\ pizzas w' !! a =
         Some {| m_dough := "cross"; m_sauce := "mild";
                 m_topping := "ham+pineapple" |}.
Proof.
  destruct (makePizza_yields_variant_literals
              {| m_pizzaBuilder := None |} 1%positive
              {| builder_class := HawaiianPizzaBuilder; m_pizza := None |}
              idle_kitchen)
    as (this' & w' & a & Hrun & _ & _ & Hp & _).
  - reflexivity.
  - intros old Hold. discriminate.
  - exists this', w', a. split; [exact Hrun | exact Hp].
Defined.

Lemma makePizza_four_steps_in_order_witness :
  exists (this' : Cook) (w' : World),
    makePizza {| m_pizzaBuilder := None |} 1%positive busy_kitchen
      = Ok (this', w')
    /\ trace w' = [Call_createNewPizzaProduct 1%positive;
                   Call_buildDough 1%positive;
                   Call_buildSauce 1%positive;
                   Call_buildTopping 1%positive].
Proof.
  apply (makePizza_four_steps_in_order
           {| m_pizzaBuilder := None |} 1%positive
           {| builder_class := HawaiianPizzaBuilder;
              m_pizza := Some 2%positive |}
           busy_kitchen).
  - reflexivity.
  - intros old Hold. injection Hold as <-. eexists. reflexivity.
Defined.

Lemma build_steps_touch_one_attribute_witness :
  exists w', buildSauce 1%positive busy_kitchen = Ok (tt, w')
    /\ only_pizza_changed 2%positive busy_kitchen w'
    /\ pizzas w' !! 2%positive =
         Some {| m_dough := EmptyString; m_sauce := "mild";
                 m_topping := EmptyString |}.
Proof.
  refine (proj1 (proj2 (build_steps_touch_one_attribute
            1%positive 2%positive
            {| builder_class := HawaiianPizzaBuilder;
               m_pizza := Some 2%positive |}
            {| m_dough := EmptyString; m_sauce := EmptyString;
               m_topping := EmptyString |}
            busy_kitchen _ _ _))); reflexivity.
Defined.

Lemma idle_kitchen_owned_live : owned_live idle_kitchen.
Proof.
  intros b o a Hb Hm. unfold idle_kitchen in Hb. wsimpl in Hb.
  apply lookup_singleton_Some in Hb as [_ <-]. discriminate.
Qed.

Lemma idle_kitchen_sole_owner : sole_owner idle_kitchen.
Proof.
  intros b1 b2 o1 o2 a H1 H2 _ _. unfold idle_kitchen in H1, H2.
  wsimpl in H1. wsimpl in H2.
  apply lookup_singleton_Some in H1 as [<- _].
  apply lookup_singleton_Some in H2 as [<- _]. reflexivity.
Qed.

Lemma same_variant_twice_independent_products_witness :
  exists (this1 : Cook) (w1 : World) (a1 : loc)
         (this2 : Cook) (w2 : World) (a2 : loc) (p : Pizza),
    makePizza {| m_pizzaBuilder := None |} 1%positive idle_kitchen
      = Ok (this1, w1)
    /\ pizzas w1 !! a1 = Some p
    /\ makePizza this1 1%positive w1 = Ok (this2, w2)
    /\ pizzas w2 !! a2 = Some p
    /\ a1 <> a2.
Proof.
  destruct (same_variant_twice_independent_products
              {| m_pizzaBuilder := None |} 1%positive 1%positive
              {| builder_class := HawaiianPizzaBuilder; m_pizza := None |}
              {| builder_class := HawaiianPizzaBuilder; m_pizza := None |}
              idle_kitchen idle_kitchen_owned_live idle_kitchen_sole_owner
              eq_refl eq_refl eq_refl)
    as (this1 & w1 & a1 & this2 & w2 & a2 & p
        & Hr1 & _ & Hp1 & Hr2 & _ & Hp2 & Hne & _).
  exists this1, w1, a1, this2, w2, a2, p. auto.
Defined.

Lemma NewDocument_registers_names_in_call_order_witness :
  exists (this' : Application) (w' w'' : World),
    fresh_application_run ["foo"; "bar"] initial_world = Ok (this', w')
    /\ _index this' = 2
    /\ ReportDocs this' w' = Ok (tt, w'')
    /\ stdout w'' = stdout w' +:+ "Application: ReportDocs()" +:+ endl
                              +:+ "   foo" +:+ endl +:+ "   bar" +:+ endl.
Proof.
  destruct (NewDocument_registers_names_in_call_order
              ["foo"; "bar"] initial_world)
    as (this' & w' & Hrun & Hidx & _ & w'' & Hrep & Hout).
  - simpl. lia.
  - repeat constructor; simpl; lia.
  - exists this', w', w''. repeat split; assumption.
Defined.

(** C2 as stated fails: one call, with a 20-character name, has no defined
    behaviour. *)
Lemma NewDocument_overlong_name_undefined :
  is_cstring "aaaaaaaaaaaaaaaaaaaa" = true
  /\ String.length "aaaaaaaaaaaaaaaaaaaa" = 20%nat
  /\ @fresh_application_run fresh_allocator ["aaaaaaaaaaaaaaaaaaaa"]
       initial_world = UB.
Proof. split; [reflexivity|]. split; reflexivity. Qed.

Lemma NewDocument_hook_then_append_then_Open_witness :
  exists (d : loc) (this' : Application) (w' : World),
    NewDocument new_application "foo" initial_world = Ok (this', w')
    /\ trace w' = [Call_CreateDocument "foo"; Write_docs 0 d; Call_Open d]
    /\ registry this' = [Some d].
Proof.
  destruct (NewDocument_hook_then_append_then_Open
              new_application "foo" initial_world)
    as (d & w1 & this' & w' & _ & _ & Hrun & Htr & _ & _ & Hreg & _).
  - simpl. lia.
  - reflexivity.
  - reflexivity.
  - simpl. lia.
  - exists d, this', w'. split; [exact Hrun|]. split; [exact Htr | exact Hreg].
Defined.

(** C6 as stated fails: the eleventh call on an application writes past the
    array, and a call with a 20-character name overruns [name] inside the
    hook; neither has defined behaviour. *)
Lemma NewDocument_eleventh_call_undefined :
  match @fresh_application_run fresh_allocator (replicate 10%nat "doc")
          initial_world with
  | Ok (this, w) =>
      _index this = 10 /\ @NewDocument fresh_allocator this "doc" w = UB
  | UB => False
  end
  /\ @NewDocument fresh_allocator new_application "aaaaaaaaaaaaaaaaaaaa"
       initial_world = UB.
Proof. split; [vm_compute; split; reflexivity | reflexivity]. Qed.



Lemma shape_ids_increase_while_counter_in_int_witness :
  exists (ps : list loc) (w' : World),
    new_Shapes [Circle; Square; Circle] initial_world = Ok (ps, w')
    /\ id_of w' <$> ps = [Some 0; Some 1; Some 2].
Proof.
  destruct (shape_ids_increase_while_counter_in_int
              [Circle; Square; Circle] initial_world)
    as (ps & w' & Hrun & Hlen & _ & _ & _ & Hid & _).
  - unfold in_int, INT_MIN, INT_MAX. simpl. lia.
  - intros p s Hs. discriminate.
  - unfold INT_MAX. simpl. lia.
  - exists ps, w'. split; [exact Hrun|].
    destruct ps as [|p0 [|p1 [|p2 [|? ?]]]]; try discriminate.
    cbn [fmap list_fmap].
    rewrite (Hid 0%nat p0 eq_refl), (Hid 1%nat p1 eq_refl),
      (Hid 2%nat p2 eq_refl). reflexivity.
Defined.

(** C3 as stated fails: of 2^31 + 1 shapes constructed one after the other
    in a new process, the one constructed last has a smaller identifier
    than the one constructed just before it. *)
Lemma shape_ids_wrap_past_INT_MAX :
  exists (ps : list loc) (w' : World) (p q : loc),
    @new_Shapes fresh_allocator (replicate (Z.to_nat 2147483649) Circle)
      initial_world = Ok (ps, w')
    /\ ps !! Z.to_nat 2147483647 = Some p
    /\ ps !! Z.to_nat 2147483648 = Some q
    /\ id_of w' p = Some 2147483647
    /\ id_of w' q = Some (-2147483648).
Proof.
  destruct (@new_Shapes_run fresh_allocator
              (replicate (Z.to_nat 2147483649) Circle) initial_world)
    as (ps & w' & Hrun & Hlen & _ & _ & _ & Hids & _).
  { unfold in_int, INT_MIN, INT_MAX. cbn [total_ initial_world]. lia. }
  rewrite length_replicate in Hlen.
  destruct (lookup_lt_is_Some_2 ps (Z.to_nat 2147483647)) as [p Hp]; [lia|].
  destruct (lookup_lt_is_Some_2 ps (Z.to_nat 2147483648)) as [q Hq]; [lia|].
  exists ps, w', p, q. split; [exact Hrun|]. split; [exact Hp|].
  split; [exact Hq|].
  destruct (Hids _ p Hp) as (c & _ & Hsp).
  destruct (Hids _ q Hq) as (c' & _ & Hsq).
  unfold id_of. rewrite Hsp, Hsq. cbn [fmap option_fmap option_map id_].
  rewrite !Z2Nat.id by lia. split; reflexivity.
Qed.

(** * Further properties of the three demos *)

Lemma only_pizza_changed_refl (a : loc) (w : World) : only_pizza_changed a w w.
Proof. repeat split. Qed.

Lemma only_pizza_changed_trans (a : loc) (w1 w2 w3 : World) :
  only_pizza_changed a w1 w2 -> only_pizza_changed a w2 w3 ->
  only_pizza_changed a w1 w3.
Proof.
  intros (H1 & H2 & H3 & H4 & H5 & H6) (K1 & K2 & K3 & K4 & K5 & K6).
  repeat split; try congruence.
  intros a' Hne. rewrite (K6 a' Hne). exact (H6 a' Hne).
Qed.

Lemma step_field {A : Type} (t s : BuildStep) (l : list BuildStep) (x y : A) :
  (if decide (t ∈ l) then x else if decide (t ∈ [s]) then x else y)
  = if decide (t ∈ s :: l) then x else y.
Proof.
  destruct (decide (t ∈ l)) as [Hl|Hl];
    destruct (decide (t ∈ s :: l)) as [Hc|Hc];
    [ reflexivity | | | ].
  - exfalso. apply Hc. right. exact Hl.
  - apply elem_of_cons in Hc as [->|Hc]; [|contradiction].
    rewrite decide_True by left. reflexivity.
  - destruct (decide (t ∈ [s])) as [Hs|Hs]; [|reflexivity].
    exfalso. apply Hc. apply list_elem_of_singleton in Hs as ->. left.
Qed.

Lemma after_steps_nil (c : BuilderClass) (p : Pizza) : after_steps c [] p = p.
Proof.
  destruct p. unfold after_steps. cbn [m_dough m_sauce m_topping].
  rewrite !decide_False by apply not_elem_of_nil. reflexivity.
Qed.

Lemma after_steps_cons (c : BuilderClass) (s : BuildStep)
    (l : list BuildStep) (p : Pizza) :
  after_steps c l (after_steps c [s] p) = after_steps c (s :: l) p.
Proof.
  unfold after_steps. cbn [m_dough m_sauce m_topping].
  rewrite !step_field. reflexivity.
Qed.

Section Builder_more.
Context `{!Allocator}.

Lemma build_step_run (s : BuildStep) (this a : loc) (o : PizzaBuilder)
    (p : Pizza) (w : World) :
  builders w !! this = Some o -> m_pizza o = Some a -> pizzas w !! a = Some p ->
  exists w',
    build_step s this w = Ok (tt, w')
    /\ only_pizza_changed a w w'
    /\ pizzas w' !! a = Some (after_steps (builder_class o) [s] p).
Proof.
  intros Hb Hm Hp.
  destruct s; cbn [build_step]; eexists;
    (split;
     [ first [ exact (buildDough_run this a o p w Hb Hm Hp)
             | exact (buildSauce_run this a o p w Hb Hm Hp)
             | exact (buildTopping_run this a o p w Hb Hm Hp) ]
     | split;
       [ unfold only_pizza_changed; wsimpl;
         repeat (split; [reflexivity|]);
         intros a' Hne; apply lookup_insert_ne; congruence
       | wsimpl; rewrite lookup_insert_eq; reflexivity ] ]).
Qed.

(** X1: on a builder with a pizza in progress, any sequence of build steps
    is defined and leaves each field at the builder's literal if its step
    occurs in the sequence and as it was otherwise; so the order of the
    steps and their repetition do not matter, and any sequence that
    contains all three gives the builder's complete pizza. *)
Theorem build_steps_depend_on_steps_run_only
    (l : list BuildStep) (this a : loc) (o : PizzaBuilder) (p : Pizza)
    (w : World) :
  builders w !! this = Some o -> m_pizza o = Some a -> pizzas w !! a = Some p ->
  exists w',
    build_steps l this w = Ok (tt, w')
    /\ only_pizza_changed a w w'
    /\ pizzas w' !! a = Some (after_steps (builder_class o) l p)
    /\ (Dough ∈ l -> Sauce ∈ l -> Topping ∈ l ->
        pizzas w' !! a = Some (built (builder_class o))).
Proof.
  intros Hb Hm Hp.
  assert (exists w', build_steps l this w = Ok (tt, w')
            /\ only_pizza_changed a w w'
            /\ pizzas w' !! a = Some (after_steps (builder_class o) l p))
    as (w' & Hrun & Hframe & Hres).
  { revert p w Hb Hp. induction l as [|s l IH]; intros p w Hb Hp.
    - exists w. split; [reflexivity|].
      split; [apply only_pizza_changed_refl|].
      rewrite after_steps_nil. exact Hp.
    - destruct (build_step_run s this a o p w Hb Hm Hp)
        as (w1 & Hrun1 & Hframe1 & Hp1).
      assert (builders w1 !! this = Some o) as Hb1.
      { destruct Hframe1 as (_ & -> & _). exact Hb. }
      destruct (IH _ w1 Hb1 Hp1) as (w' & Hrun & Hframe & Hres).
      exists w'. split; [|split].
      + cbn [build_steps]. unfold bind. rewrite Hrun1. exact Hrun.
      + exact (only_pizza_changed_trans a w w1 w' Hframe1 Hframe).
      + rewrite Hres, after_steps_cons. reflexivity. }
  exists w'. split; [exact Hrun|]. split; [exact Hframe|].
  split; [exact Hres|].
  intros HD HS HT. rewrite Hres. f_equal. unfold after_steps.
  rewrite !decide_True by assumption. destruct (built (builder_class o)).
  reflexivity.
Qed.


(** X2: a builder that has not created a product yet hands out a null
    pointer; each of the three build steps on it dereferences that pointer
    and is undefined, and so is [openPizza] on a cook that uses it or on a
    cook that has never made a pizza. *)
Theorem build_and_open_need_a_product
    (this : loc) (o : PizzaBuilder) (w : World) :
  builders w !! this = Some o -> m_pizza o = None ->
  buildDough this w = UB
  /\ buildSauce this w = UB
  /\ buildTopping this w = UB
  /\ getPizza this w =
       Ok (None, set_trace (fun t => t ++ [Call_getPizza this]) w)
  /\ openPizza {| m_pizzaBuilder := Some this |} w = UB
  /\ openPizza {| m_pizzaBuilder := None |} w = UB.
Proof.
  intros Hb Hm.
  split; [|split; [|split; [|split; [|split]]]].
  - unfold buildDough, HawaiianPizzaBuilder_buildDough,
      SpicyPizzaBuilder_buildDough, on_m_pizza, PizzaBuilder_load.
    msimpl. rewrite Hb. destruct (builder_class o); msimpl;
      rewrite Hb, Hm; reflexivity.
  - unfold buildSauce, HawaiianPizzaBuilder_buildSauce,
      SpicyPizzaBuilder_buildSauce, on_m_pizza, PizzaBuilder_load.
    msimpl. rewrite Hb. destruct (builder_class o); msimpl;
      rewrite Hb, Hm; reflexivity.
  - unfold buildTopping, HawaiianPizzaBuilder_buildTopping,
      SpicyPizzaBuilder_buildTopping, on_m_pizza, PizzaBuilder_load.
    msimpl. rewrite Hb. destruct (builder_class o); msimpl;
      rewrite Hb, Hm; reflexivity.
  - unfold getPizza, PizzaBuilder_load. msimpl. rewrite Hb, Hm. reflexivity.
  - unfold openPizza, getPizza, PizzaBuilder_load. msimpl.
    rewrite Hb, Hm. reflexivity.
  - reflexivity.
Qed.

(** X3: [createNewPizzaProduct] gives the builder a new pizza whose three
    fields are empty, whatever had been built before, and destroys the
    pizza the builder held; other pizzas and other builders are left
    alone, so the number of live pizzas grows by one only when the builder
    held none. *)
Theorem createNewPizzaProduct_starts_blank
    (this : loc) (o : PizzaBuilder) (w : World) :
  builders w !! this = Some o ->
  (forall old, m_pizza o = Some old -> is_Some (pizzas w !! old)) ->
  exists (a : loc) (w' : World),
    createNewPizzaProduct this w = Ok (tt, w')
    /\ (a ∉ live w)
    /\ product_of this w' = Some a
    /\ pizzas w' !! a = Some blank
    /\ (forall old, m_pizza o = Some old -> pizzas w' !! old = None)
    /\ (forall a', a' <> a -> m_pizza o <> Some a' ->
          pizzas w' !! a' = pizzas w !! a')
    /\ (forall b, b <> this -> builders w' !! b = builders w !! b)
    /\ size (pizzas w') =
         (size (pizzas w) + match m_pizza o with Some _ => 0 | None => 1 end)%nat.
Proof.
  intros Hb Hold.
  exists (alloc (live w)). eexists.
  split; [exact (createNewPizzaProduct_run this o w Hb Hold)|].
  split; [apply alloc_fresh|]. wsimpl.
  rewrite released_insert_fresh by (auto using alloc_not_pizza).
  split; [unfold product_of; wsimpl; rewrite lookup_insert_eq; reflexivity|].
  split; [apply lookup_insert_eq|].
  assert (forall old, m_pizza o = Some old -> old <> alloc (live w)) as Hne.
  { intros old Hm ->. destruct (Hold _ Hm) as [q Hq].
    rewrite alloc_not_pizza in Hq. discriminate. }
  split; [|split; [|split]].
  - intros old Hm. rewrite lookup_insert_ne by (intros Heq; exact (Hne old Hm (eq_sym Heq))).
    rewrite Hm. simpl. apply lookup_delete_eq.
  - intros a' Ha' Hm. rewrite lookup_insert_ne by congruence.
    destruct (m_pizza o) as [old|]; simpl; [|reflexivity].
    apply lookup_delete_ne. congruence.
  - intros b Hne'. apply lookup_insert_ne. congruence.
  - destruct (m_pizza o) as [old|] eqn:Hm; simpl.
    + rewrite map_size_insert_None
        by (rewrite lookup_delete_ne by (intros Heq; exact (Hne old eq_refl Heq));
            apply alloc_not_pizza).
      rewrite map_size_delete_Some by (apply Hold; reflexivity).
      destruct (Hold old eq_refl) as [q Hq].
      assert (size (pizzas w) <> 0%nat) as Hpos.
      { intros Hz. apply map_size_empty_inv in Hz. rewrite Hz in Hq.
        rewrite lookup_empty in Hq. discriminate. }
      lia.
    + rewrite map_size_insert_None by apply alloc_not_pizza. lia.
Qed.

Lemma makePizza_no_builder (this : Cook) (pb : loc) (w : World) :
  builders w !! pb = None -> makePizza this pb w = UB.
Proof.
  intros Hb. unfold makePizza, createNewPizzaProduct, make_unique_Pizza,
    Pizza_store, PizzaBuilder_load.
  msimpl. rewrite Hb. reflexivity.
Qed.

Lemma makePizza_dangling (this : Cook) (pb old : loc) (o : PizzaBuilder)
    (w : World) :
  builders w !! pb = Some o -> m_pizza o = Some old ->
  pizzas w !! old = None -> makePizza this pb w = UB.
Proof.
  intros Hb Hm Hp.
  unfold makePizza, createNewPizzaProduct, make_unique_Pizza, Pizza_store,
    PizzaBuilder_load, PizzaBuilder_store, delete_Pizza, Pizza_load.
  msimpl. rewrite Hb. msimpl. rewrite Hm. msimpl.
  destruct (decide (old = alloc (live w))) as [->|Hne].
  - rewrite lookup_insert_eq. msimpl.
    unfold buildDough, HawaiianPizzaBuilder_buildDough,
      SpicyPizzaBuilder_buildDough, on_m_pizza, setDough, Pizza_store,
      PizzaBuilder_load, Pizza_load.
    msimpl. rewrite lookup_insert_eq. msimpl.
    destruct (builder_class o); msimpl; rewrite lookup_insert_eq; msimpl;
      rewrite lookup_delete_eq; reflexivity.
  - rewrite lookup_insert_ne by congruence. rewrite Hp. reflexivity.
Qed.

(** When [makePizza] has defined behaviour its argument pointed to a
    builder whose pizza, if any, was live. *)
Lemma makePizza_defined (this this' : Cook) (pb : loc) (w w' : World) :
  makePizza this pb w = Ok (this', w') ->
  exists o, builders w !! pb = Some o
    /\ (forall old, m_pizza o = Some old -> is_Some (pizzas w !! old))
    /\ this' = {| m_pizzaBuilder := Some pb |}
    /\ w' = after_makePizza pb o w.
Proof.
  intros Hrun. destruct (builders w !! pb) as [o|] eqn:Hb.
  - assert (forall old, m_pizza o = Some old -> is_Some (pizzas w !! old))
      as Hold.
    { intros old Hm. destruct (pizzas w !! old) as [q|] eqn:Hp; [eauto|].
      rewrite (makePizza_dangling this pb old o w Hb Hm Hp) in Hrun.
      discriminate. }
    exists o. split; [reflexivity|]. split; [exact Hold|].
    rewrite (makePizza_run this pb o w Hb Hold) in Hrun.
    injection Hrun as <- <-. split; reflexivity.
  - rewrite (makePizza_no_builder this pb w Hb) in Hrun. discriminate.
Qed.

(** X4: [makePizza] has defined behaviour exactly when its argument points
    to a live builder whose pizza, if it holds one, is live; then the cook
    ends up pointing to that builder, and what was printed, the documents,
    the shapes and the counter are as before. *)
Theorem makePizza_defined_iff_builder_sound
    (this : Cook) (pb : loc) (w : World) :
  ((exists (this' : Cook) (w' : World), makePizza this pb w = Ok (this', w'))
   <-> (exists o, builders w !! pb = Some o
          /\ forall old, m_pizza o = Some old -> is_Some (pizzas w !! old)))
  /\ (forall (this' : Cook) (w' : World),
        makePizza this pb w = Ok (this', w') ->
        m_pizzaBuilder this' = Some pb
        /\ stdout w' = stdout w /\ documents w' = documents w
        /\ shapes w' = shapes w /\ total_ w' = total_ w).
Proof.
  split; [split|].
  - intros (this' & w' & Hrun).
    destruct (makePizza_defined this this' pb w w' Hrun) as (o & Hb & Hold & _).
    exists o. split; assumption.
  - intros (o & Hb & Hold). eexists _, _.
    exact (makePizza_run this pb o w Hb Hold).
  - intros this' w' Hrun.
    destruct (makePizza_defined this this' pb w w' Hrun)
      as (o & _ & _ & -> & ->).
    repeat split.
Qed.

Lemma kitchen_ok_same (w w' : World) :
  pizzas w' = pizzas w -> builders w' = builders w ->
  kitchen_ok w -> kitchen_ok w'.
Proof.
  intros Hp Hb (Hlive & Hsole & Horph). unfold kitchen_ok, owned_live,
    sole_owner, no_orphan. rewrite Hp, Hb. auto.
Qed.

Lemma openPizza_defined (this : Cook) (w w' : World) :
  openPizza this w = Ok (tt, w') ->
  exists pb o a p,
    m_pizzaBuilder this = Some pb /\ builders w !! pb = Some o
    /\ m_pizza o = Some a /\ pizzas w !! a = Some p
    /\ w' = set_stdout (fun out => out +:+ Pizza_line p)
              (set_trace (fun t => t ++ [Call_getPizza pb]) w).
Proof.
  unfold openPizza, getPizza, open, PizzaBuilder_load, Pizza_load.
  destruct (m_pizzaBuilder this) as [pb|]; msimpl; [|discriminate].
  destruct (builders w !! pb) as [o|] eqn:Hb; msimpl; [|discriminate].
  destruct (m_pizza o) as [a|] eqn:Hm; msimpl; [|discriminate].
  destruct (pizzas w !! a) as [p|] eqn:Hp; msimpl; [|discriminate].
  intros [= <-]. exists pb, o, a, p. repeat split; assumption.
Qed.

(** X5: starting from nothing, constructing builders, making pizzas and
    showing them keeps the kitchen sound: a builder's pizza is live, no
    pizza has two owners, and every live pizza is held by a builder, so
    [makePizza] is always defined there and no pizza is ever leaked. *)
Theorem kitchen_stays_sound :
  kitchen_ok initial_world
  /\ (forall (c : BuilderClass) (w : World),
        kitchen_ok w ->
        exists (b : loc) (w' : World),
          PizzaBuilder_ctor c w = Ok (b, w')
          /\ builders w' !! b = Some {| builder_class := c; m_pizza := None |}
          /\ kitchen_ok w')
  /\ (forall (this : Cook) (pb : loc) (o : PizzaBuilder) (w : World),
        kitchen_ok w -> builders w !! pb = Some o ->
        exists (this' : Cook) (w' : World),
          makePizza this pb w = Ok (this', w') /\ kitchen_ok w')
  /\ (forall (this : Cook) (w w' : World),
        kitchen_ok w -> openPizza this w = Ok (tt, w') -> kitchen_ok w').
Proof.
  split; [|split; [|split]].
  - destruct initial_world_ownership as [Hl Hs]. split; [exact Hl|].
    split; [exact Hs|]. intros a [q Hq]. unfold initial_world in Hq.
    wsimpl in Hq. rewrite lookup_empty in Hq. discriminate.
  - intros c w (Hlive & Hsole & Horph).
    destruct (PizzaBuilder_ctor_keeps_ownership c w Hlive Hsole)
      as (b & w' & Hrun & Hb & Hlive' & Hsole').
    exists b, w'. split; [exact Hrun|]. split; [exact Hb|].
    split; [exact Hlive'|]. split; [exact Hsole'|].
    rewrite PizzaBuilder_ctor_run in Hrun. injection Hrun as <- <-.
    intros a Ha. wsimpl in Ha. destruct (Horph a Ha) as (b' & o' & Hb' & Hm').
    exists b', o'. split; [|exact Hm']. wsimpl.
    rewrite lookup_insert_ne; [exact Hb'|].
    intros <-. rewrite alloc_not_builder in Hb'. discriminate.
  - intros this pb o w (Hlive & Hsole & Horph) Hb.
    eexists _, _. split.
    { apply (makePizza_run this pb o w Hb). intros old Hm.
      exact (Hlive pb o old Hb Hm). }
    destruct (makePizza_keeps_ownership pb o w Hlive Hsole Hb)
      as [Hlive' Hsole'].
    split; [exact Hlive'|]. split; [exact Hsole'|].
    intros a Ha. unfold after_makePizza in *. wsimpl. wsimpl in Ha.
    destruct (decide (a = alloc (live w))) as [->|Hne].
    + eexists pb, _. split; [apply lookup_insert_eq | reflexivity].
    + rewrite lookup_insert_ne in Ha by congruence.
      assert (is_Some (pizzas w !! a) /\ m_pizza o <> Some a) as [Ha' Hnot].
      { destruct (m_pizza o) as [old|]; simpl in Ha.
        - destruct (decide (old = a)) as [->|Hne'].
          + rewrite lookup_delete_eq in Ha. destruct Ha; discriminate.
          + rewrite lookup_delete_ne in Ha by exact Hne'.
            split; [exact Ha | congruence].
        - split; [exact Ha | discriminate]. }
      destruct (Horph a Ha') as (b' & o' & Hb' & Hm').
      exists b', o'. split; [|exact Hm'].
      rewrite lookup_insert_ne; [exact Hb'|].
      intros <-. rewrite Hb in Hb'. injection Hb' as <-. contradiction.
  - intros this w w' Hok Hrun.
    destruct (openPizza_defined this w w' Hrun)
      as (pb & o & a & p & _ & _ & _ & _ & ->).
    apply (kitchen_ok_same w); [reflexivity | reflexivity | exact Hok].
Qed.

(** X6: [openPizza] only prints: on a cook whose builder holds a pizza,
    finished or not, it writes the line made of the pizza's current fields
    and changes no object, so a second call writes the same line again. *)
Theorem openPizza_only_prints
    (this : Cook) (pb a : loc) (o : PizzaBuilder) (p : Pizza) (w : World) :
  m_pizzaBuilder this = Some pb ->
  builders w !! pb = Some o -> m_pizza o = Some a -> pizzas w !! a = Some p ->
  exists w1 w2 : World,
    openPizza this w = Ok (tt, w1)
    /\ openPizza this w1 = Ok (tt, w2)
    /\ same_objects w w1 /\ same_objects w w2
    /\ stdout w1 =
         stdout w +:+ "Pizza with " +:+ m_dough p +:+ " dough, "
                  +:+ m_sauce p +:+ " sauce and " +:+ m_topping p
                  +:+ " topping. Mmm." +:+ endl
    /\ stdout w2 = stdout w1 +:+ Pizza_line p
    /\ trace w2 = trace w ++ [Call_getPizza pb; Call_getPizza pb].
Proof.
  intros Hc Hb Hm Hp. eexists _, _.
  split; [exact (openPizza_run this pb a o p w Hc Hb Hm Hp)|].
  split; [apply (openPizza_run this pb a o p);
            [exact Hc | exact Hb | exact Hm | exact Hp]|].
  split; [repeat split|]. split; [repeat split|].
  split; [reflexivity|]. split; [reflexivity|].
  wsimpl. rewrite <- (assoc_L (++)). reflexivity.
Qed.


(** X15: in a kitchen where no pizza has two owners, [makePizza] with one
    builder leaves every other builder as it was, and that builder's pizza
    live and unchanged. *)
Theorem makePizza_leaves_other_builders
    (this : Cook) (pb b : loc) (o o' : PizzaBuilder) (w : World) :
  owned_live w -> sole_owner w ->
  builders w !! pb = Some o -> b <> pb -> builders w !! b = Some o' ->
  exists (this' : Cook) (w' : World),
    makePizza this pb w = Ok (this', w')
    /\ builders w' !! b = Some o'
    /\ forall a' p', m_pizza o' = Some a' -> pizzas w !! a' = Some p' ->
         pizzas w' !! a' = Some p'.
Proof.
  intros Hlive Hsole Hb Hne Hb'.
  eexists _, _. split.
  { apply (makePizza_run this pb o w Hb). intros old Hm.
    exact (Hlive pb o old Hb Hm). }
  unfold after_makePizza. wsimpl. split.
  - rewrite lookup_insert_ne by congruence. exact Hb'.
  - intros a' p' Hm' Hp'.
    rewrite lookup_insert_ne
      by (intros Heq; rewrite <- Heq, alloc_not_pizza in Hp'; discriminate).
    destruct (m_pizza o) as [old|] eqn:Hm; simpl; [|exact Hp'].
    rewrite lookup_delete_ne; [exact Hp'|].
    intros Heq. subst old. apply Hne.
    exact (Hsole b pb o' o a' Hb' Hb Hm' Hm).
Qed.

End Builder_more.

Lemma strcpy_cells (src : string) :
  forall dst : char_array,
    is_cstring src = true -> (String.length src < length dst)%nat ->
    strcpy dst src = Ok (cells_of src ++ drop (S (String.length src)) dst).
Proof.
  unfold cells_of.
  induction src as [|c src IH]; intros [|x dst] Hc Hlen; simpl in *;
    try lia.
  - rewrite drop_0. reflexivity.
  - apply andb_true_iff in Hc as [Hc1 Hc2].
    apply negb_true_iff in Hc1. rewrite Hc1.
    rewrite (IH dst Hc2 ltac:(lia)). reflexivity.
Qed.

Lemma cells_of_cons (c : ascii) (s : string) :
  cells_of (String c s) = Some c :: cells_of s.
Proof. reflexivity. Qed.

Lemma read_cstr_cells (s : string) (rest : char_array) :
  is_cstring s = true -> read_cstr (cells_of s ++ rest) = Ok s.
Proof.
  induction s as [|c s IH]; intros Hc.
  - reflexivity.
  - cbn [is_cstring] in Hc. apply andb_true_iff in Hc as [Hc1 Hc2].
    apply negb_true_iff in Hc1.
    rewrite cells_of_cons. cbn [app read_cstr]. rewrite Hc1, (IH Hc2).
    reflexivity.
Qed.

(** X11: given a C string of fewer than 20 characters, the constructor of
    [Document] leaves in [name] the characters, the terminator, and
    indeterminate cells up to the 20th, and the array reads back as the
    string; given 20 characters or more it writes past the array. *)
Theorem Document_ctor_fills_name (fn : string) :
  is_cstring fn = true ->
  ((String.length fn < 20)%nat ->
     Document_ctor fn =
       Ok (cells_of fn ++ replicate (19 - String.length fn) None)
     /\ read_cstr (cells_of fn ++ replicate (19 - String.length fn) None)
        = Ok fn)
  /\ ((20 <= String.length fn)%nat -> Document_ctor fn = UB).
Proof.
  intros Hc. split.
  - intros Hlen. split; [|apply read_cstr_cells; exact Hc].
    unfold Document_ctor, NAME_SIZE.
    rewrite strcpy_cells by (rewrite ?length_replicate; assumption).
    rewrite drop_replicate. repeat f_equal; lia.
  - intros Hlen. unfold Document_ctor, NAME_SIZE.
    apply strcpy_overflow; [exact Hc|]. rewrite length_replicate. exact Hlen.
Qed.

Section FactoryMethod_more.
Context `{!Allocator}.

(** What a call with defined behaviour has done. *)
Lemma NewDocument_defined_state (this this' : Application) (fn : string)
    (w w' : World) :
  NewDocument this fn w = Ok (this', w') ->
  exists buf,
    Document_ctor fn = Ok buf
    /\ 0 <= _index this < DOCS_SIZE
    /\ (Z.to_nat (_index this) < length (_docs this))%nat
    /\ this' = {| application_class := application_class this;
                  _index := _index this + 1;
                  _docs := <[Z.to_nat (_index this) := Some (alloc (live w))]>
                             (_docs this) |}
    /\ w' = {| stdout := stdout w +:+ NewDocument_lines;
               trace := trace w ++ [Call_CreateDocument fn;
                                    Write_docs (_index this) (alloc (live w));
                                    Call_Open (alloc (live w))];
               pizzas := pizzas w; builders := builders w;
               documents := <[alloc (live w) :=
                                {| document_class := MyDocument;
                                   name := buf |}]> (documents w);
               shapes := shapes w; total_ := total_ w |}.
Proof.
  unfold NewDocument, CreateDocument, MyApplication_CreateDocument,
    new_MyDocument, docs_store, docs_load, Open, Document_load,
    MyDocument_Open.
  destruct (application_class this). msimpl.
  destruct (Document_ctor fn) as [buf|]; [|discriminate]. msimpl.
  destruct (decide (0 <= _index this < DOCS_SIZE)) as [Hi|Hi];
    [|discriminate].
  msimpl.
  destruct (decide (Z.to_nat (_index this) < length (_docs this))%nat)
    as [Hlt|Hge].
  - rewrite list_lookup_insert_eq by exact Hlt. msimpl.
    rewrite lookup_insert_eq. msimpl.
    rewrite wrap32_in_int
      by (unfold in_int, INT_MIN, INT_MAX, DOCS_SIZE in *; lia).
    intros [= <- <-]. exists buf. split; [reflexivity|].
    split; [exact Hi|]. split; [exact Hlt|]. split; [reflexivity|].
    apply World_eq; wsimpl; try reflexivity.
    + unfold NewDocument_lines. rewrite !string_app_assoc. reflexivity.
    + rewrite <- !(assoc_L (++)). reflexivity.
  - rewrite list_insert_ge by lia.
    rewrite (lookup_ge_None_2 (_docs this)) by lia. discriminate.
Qed.

(** X7: on an application whose array has its 10 cells, a call with a C
    string has defined behaviour exactly when the index is one of 0 .. 9
    and the string has fewer than 20 characters. *)
Theorem NewDocument_defined_iff_room_and_fit
    (this : Application) (fn : string) (w : World) :
  length (_docs this) = 10%nat ->
  is_cstring fn = true ->
  (exists (this' : Application) (w' : World),
     NewDocument this fn w = Ok (this', w'))
  <-> (0 <= _index this < 10 /\ (String.length fn < 20)%nat).
Proof.
  intros Hlen Hc. split.
  - intros (this' & w' & Hrun).
    destruct (NewDocument_defined_state this this' fn w w' Hrun)
      as (buf & Hbuf & Hi & _).
    split; [exact Hi|].
    destruct (decide (String.length fn < 20)%nat) as [Hfit|Hfit];
      [exact Hfit|].
    unfold Document_ctor, NAME_SIZE in Hbuf.
    rewrite strcpy_overflow in Hbuf
      by first [exact Hc | rewrite length_replicate; lia].
    discriminate.
  - intros [Hi Hfit].
    destruct (NewDocument_run this fn w Hi Hlen (conj Hc Hfit))
      as (buf & _ & _ & Hrun).
    eexists _, _. exact Hrun.
Qed.

(** X8: a run of [NewDocument] calls that has defined behaviour creates one
    new document per call and never destroys or changes a document that
    existed; pizzas, builders, shapes and the counter are as before. *)
Theorem NewDocuments_only_add_documents (names : list string) :
  forall (this this' : Application) (w w' : World),
    NewDocuments this names w = Ok (this', w') ->
    documents w ⊆ documents w'
    /\ size (documents w') = (size (documents w) + length names)%nat
    /\ pizzas w' = pizzas w /\ builders w' = builders w
    /\ shapes w' = shapes w /\ total_ w' = total_ w.
Proof.
  induction names as [|fn names IH]; intros this this' w w' Hrun.
  - injection Hrun as _ <-. rewrite Nat.add_0_r. repeat split; reflexivity.
  - simpl in Hrun. unfold bind in Hrun.
    destruct (NewDocument this fn w) as [[this1 w1]|] eqn:Hrun1;
      [|discriminate].
    destruct (NewDocument_defined_state this this1 fn w w1 Hrun1)
      as (buf & _ & _ & _ & _ & ->).
    destruct (IH _ _ _ _ Hrun) as (Hsub & Hsize & Hp & Hb & Hs & Ht).
    wsimpl in Hsub. wsimpl in Hsize. wsimpl in Hp. wsimpl in Hb.
    wsimpl in Hs. wsimpl in Ht.
    split; [|split; [|repeat split; assumption]].
    + etrans; [|exact Hsub]. apply insert_subseteq. apply alloc_not_document.
    + rewrite Hsize, map_size_insert_None by apply alloc_not_document.
      simpl length. lia.
Qed.

Lemma for_each_same_objects {A : Type} (body : A -> M unit) (l : list A) :
  (forall x w w', body x w = Ok (tt, w') -> same_objects w w') ->
  forall w w', for_each l body w = Ok (tt, w') -> same_objects w w'.
Proof.
  intros Hbody. induction l as [|x l IH]; intros w w' Hrun.
  - injection Hrun as <-. repeat split.
  - cbn [for_each] in Hrun. unfold bind in Hrun.
    destruct (body x w) as [[[] w1]|] eqn:Hx; [|discriminate].
    destruct (Hbody x w w1 Hx) as (H1 & H2 & H3 & H4 & H5).
    destruct (IH w1 w' Hrun) as (K1 & K2 & K3 & K4 & K5).
    repeat split; congruence.
Qed.

Lemma ReportDocs_defined_same (this : Application) (w w' : World) :
  ReportDocs this w = Ok (tt, w') -> same_objects w w'.
Proof.
  unfold ReportDocs. unfold bind at 1. unfold print at 1, modify at 1.
  intros Hrun. apply for_each_same_objects in Hrun.
  - destruct Hrun as (H1 & H2 & H3 & H4 & H5). repeat split; assumption.
  - clear. intros i w w'.
    unfold docs_load, GetName, Document_load, print_cstr.
    destruct (decide (0 <= i < DOCS_SIZE)); [|discriminate].
    destruct (_docs this !! Z.to_nat i) as [[d|]|]; msimpl;
      try discriminate.
    destruct (documents w !! d) as [doc|]; msimpl; [|discriminate].
    destruct (read_cstr (name doc)) as [s|]; msimpl; [|discriminate].
    intros [= <-]. repeat split.
Qed.

(** X9: [ReportDocs] only reads: whenever it has defined behaviour no
    object has changed; on an application whose registry holds the
    documents named [fns] it is defined, prints its banner and the names,
    and a second call prints the same again. *)
Theorem ReportDocs_only_reads (this : Application) :
  (forall w w' : World, ReportDocs this w = Ok (tt, w') -> same_objects w w')
  /\ (forall (w : World) (fns : list string),
        registered this w fns ->
        exists w1 w2 : World,
          ReportDocs this w = Ok (tt, w1)
          /\ ReportDocs this w1 = Ok (tt, w2)
          /\ registered this w1 fns
          /\ stdout w1 = stdout w +:+ "Application: ReportDocs()" +:+ endl
                                  +:+ report_lines fns
          /\ stdout w2 = stdout w1 +:+ "Application: ReportDocs()" +:+ endl
                                   +:+ report_lines fns).
Proof.
  split; [exact (ReportDocs_defined_same this)|].
  intros w fns Hreg.
  destruct (ReportDocs_run this w fns Hreg) as (w1 & Hrun1 & Hout1 & Hsame1).
  assert (registered this w1 fns) as Hreg1.
  { destruct Hreg as (Hidx & Hlen & ps & Hps & Hnd & Hnames).
    destruct Hsame1 as (_ & _ & Hd & _).
    split; [exact Hidx|]. split; [exact Hlen|]. exists ps.
    rewrite Hd. repeat split; assumption. }
  destruct (ReportDocs_run this w1 fns Hreg1) as (w2 & Hrun2 & Hout2 & _).
  exists w1, w2. split; [exact Hrun1|]. split; [exact Hrun2|].
  split; [exact Hreg1|]. split; [exact Hout1 | exact Hout2].
Qed.

(** X10: on a live document [Open] and [Close] print their line and change
    no object; on an address that holds no document they are undefined. *)
Theorem Open_and_Close_only_print (this : loc) (w : World) :
  (is_Some (documents w !! this) ->
     Open this w =
       Ok (tt, set_stdout (fun out => out +:+ "   MyDocument: Open()" +:+ endl)
                 (set_trace (fun t => t ++ [Call_Open this]) w))
     /\ Close this w =
         Ok (tt, set_stdout (fun out => out +:+ "   MyDocument: Close()" +:+ endl)
                   (set_trace (fun t => t ++ [Call_Close this]) w)))
  /\ (documents w !! this = None -> Open this w = UB /\ Close this w = UB).
Proof.
  unfold Open, Close, Document_load, MyDocument_Open, MyDocument_Close.
  split.
  - intros [d Hd]. msimpl. rewrite Hd. destruct (document_class d).
    split; reflexivity.
  - intros Hd. msimpl. rewrite Hd. split; reflexivity.
Qed.

End FactoryMethod_more.

(** ** Abstract Factory, further *)

Lemma wrap32_period (x : Z) : wrap32 (x + 2 ^ 32) = wrap32 x.
Proof.
  unfold wrap32. f_equal.
  replace (x + 2 ^ 32 + 2 ^ 31) with (x + 2 ^ 31 + 1 * 2 ^ 32) by lia.
  apply Z_mod_plus_full.
Qed.

Section AbstractFactory_more.
Context `{!Allocator}.

Lemma draw_defined (this : loc) (w w' : World) :
  draw this w = Ok (tt, w') ->
  exists s, shapes w !! this = Some s
    /\ w' = set_stdout (fun out => out +:+ draw_line s) w.
Proof.
  intros Hrun. destruct (shapes w !! this) as [s|] eqn:Hs.
  - rewrite (draw_run this s w Hs) in Hrun. injection Hrun as <-.
    exists s. split; reflexivity.
  - unfold draw, Shape_load, bind in Hrun. rewrite Hs in Hrun. discriminate.
Qed.

(** X12: a shape that a factory has just created draws itself under the
    word of the factory's family, followed by the value the counter had
    when it was created: circle or square for the simple factory, ellipse
    or rectangle for the robust one. *)
Theorem factory_shapes_draw_their_family (this : Factory) (w : World) :
  (exists (a : loc) (w1 w2 : World),
     createCurvedInstance this w = Ok (a, w1)
     /\ draw a w1 = Ok (tt, w2)
     /\ stdout w2 =
          stdout w +:+ match this with
                       | SimpleShapeFactory => "circle "
                       | RobustShapeFactory => "ellipse "
                       end +:+ pretty (total_ w) +:+ ": draw" +:+ endl)
  /\ (exists (a : loc) (w1 w2 : World),
     createStraightInstance this w = Ok (a, w1)
     /\ draw a w1 = Ok (tt, w2)
     /\ stdout w2 =
          stdout w +:+ match this with
                       | SimpleShapeFactory => "square "
                       | RobustShapeFactory => "rectangle "
                       end +:+ pretty (total_ w) +:+ ": draw" +:+ endl).
Proof.
  split; destruct this; cbn [createCurvedInstance createStraightInstance];
    (eexists _, _, _; split; [apply new_Shape_run|]);
    (split; [apply draw_run; apply after_new_Shape_new | reflexivity]).
Qed.

(** X13: [draw] has defined behaviour exactly on an address that holds a
    shape; it then appends the shape's line, made of the word of its class
    and its identifier, and changes no object and not the counter. *)
Theorem draw_defined_iff_shape (this : loc) (w : World) :
  ((exists w', draw this w = Ok (tt, w')) <-> is_Some (shapes w !! this))
  /\ (forall w',
        draw this w = Ok (tt, w') ->
        same_objects w w' /\ trace w' = trace w
        /\ exists s, shapes w !! this = Some s
             /\ stdout w' =
                  stdout w +:+ match shape_class s with
                               | Circle => "circle "
                               | Square => "square "
                               | Ellipse => "ellipse "
                               | Rectangle => "rectangle "
                               end +:+ pretty (id_ s) +:+ ": draw" +:+ endl).
Proof.
  split; [split|].
  - intros (w' & Hrun). destruct (draw_defined this w w' Hrun) as (s & Hs & _).
    eauto.
  - intros [s Hs]. eexists. exact (draw_run this s w Hs).
  - intros w' Hrun. destruct (draw_defined this w w' Hrun) as (s & Hs & ->).
    split; [repeat split|]. split; [reflexivity|].
    exists s. split; [exact Hs | reflexivity].
Qed.

(** X14: however many shapes are constructed one after the other, the one
    at position i gets the class asked for and the identifier
    (counter + i) reduced to [int]; so identifiers repeat with period 2^32,
    and the counter stays an [int]. *)
Theorem shape_ids_follow_the_counter_modulo
    (cs : list ShapeClass) (w : World) :
  in_int (total_ w) ->
  exists (ps : list loc) (w' : World),
    new_Shapes cs w = Ok (ps, w')
    /\ length ps = length cs
    /\ (forall i p, ps !! i = Some p ->
          id_of w' p = Some (wrap32 (total_ w + Z.of_nat i))
          /\ class_of w' p = cs !! i)
    /\ (forall i j p q,
          ps !! i = Some p -> ps !! j = Some q ->
          Z.of_nat j = Z.of_nat i + 2 ^ 32 ->
          id_of w' p = id_of w' q)
    /\ in_int (total_ w').
Proof.
  intros Hin.
  destruct (new_Shapes_run cs w Hin)
    as (ps & w' & Hrun & Hlen & _ & _ & _ & Hids & Htot).
  assert (forall i p, ps !! i = Some p ->
            id_of w' p = Some (wrap32 (total_ w + Z.of_nat i))
            /\ class_of w' p = cs !! i) as Hid.
  { intros i p Hp. destruct (Hids i p Hp) as (c & Hc & Hs).
    unfold id_of, class_of. rewrite Hs, Hc. split; reflexivity. }
  exists ps, w'. split; [exact Hrun|]. split; [exact Hlen|].
  split; [exact Hid|]. split.
  - intros i j p q Hp Hq Hij.
    destruct (Hid i p Hp) as [-> _]. destruct (Hid j q Hq) as [-> _].
    rewrite Hij, Z.add_assoc, wrap32_period. reflexivity.
  - rewrite Htot. apply wrap32_range.
Qed.

End AbstractFactory_more.

(** ** Concrete runs of the further properties *)

Lemma build_steps_depend_on_steps_run_only_witness :
  exists w',
    build_steps [Topping; Dough; Sauce; Dough] 1%positive busy_kitchen
      = Ok (tt, w')
    /\ pizzas w' !! 2%positive =
         Some {| m_dough := "cross"; m_sauce := "mild";
                 m_topping := "ham+pineapple" |}.
Proof.
  destruct (build_steps_depend_on_steps_run_only
              [Topping; Dough; Sauce; Dough] 1%positive 2%positive
              {| builder_class := HawaiianPizzaBuilder;
                 m_pizza := Some 2%positive |}
              blank busy_kitchen eq_refl eq_refl eq_refl)
    as (w' & Hrun & _ & _ & Hall).
  exists w'. split; [exact Hrun|].
  apply Hall; [right; left | right; right; left | left].
Defined.

Lemma build_and_open_need_a_product_witness :
  buildDough 1%positive idle_kitchen = UB
  /\ openPizza {| m_pizzaBuilder := Some 1%positive |} idle_kitchen = UB.
Proof.
  destruct (build_and_open_need_a_product 1%positive
              {| builder_class := HawaiianPizzaBuilder; m_pizza := None |}
              idle_kitchen eq_refl eq_refl)
    as (HD & _ & _ & _ & HO & _).
  split; [exact HD | exact HO].
Defined.

Lemma createNewPizzaProduct_starts_blank_witness :
  exists (a : loc) (w' : World),
    createNewPizzaProduct 1%positive busy_kitchen = Ok (tt, w')
    /\ pizzas w' !! a = Some blank
    /\ pizzas w' !! 2%positive = None
    /\ size (pizzas w') = 1%nat.
Proof.
  destruct (createNewPizzaProduct_starts_blank 1%positive
              {| builder_class := HawaiianPizzaBuilder;
                 m_pizza := Some 2%positive |} busy_kitchen eq_refl)
    as (a & w' & Hrun & _ & _ & Hblank & Hold & _ & _ & Hsize).
  - intros old Hm. injection Hm as <-. eexists. reflexivity.
  - exists a, w'. split; [exact Hrun|]. split; [exact Hblank|].
    split; [exact (Hold _ eq_refl) | exact Hsize].
Defined.

Lemma makePizza_defined_iff_builder_sound_witness :
  (exists (this' : Cook) (w' : World),
     makePizza {| m_pizzaBuilder := None |} 1%positive idle_kitchen
       = Ok (this', w'))
  /\ ~ (exists (this' : Cook) (w' : World),
         makePizza {| m_pizzaBuilder := None |} 2%positive idle_kitchen
           = Ok (this', w')).
Proof.
  split.
  - apply (proj1 (makePizza_defined_iff_builder_sound _ _ _)).
    eexists. split; [reflexivity|]. intros old Hm. discriminate.
  - intros Hdef.
    apply (proj1 (makePizza_defined_iff_builder_sound _ _ _)) in Hdef
      as (o & Hb & _).
    discriminate.
Defined.

Lemma kitchen_stays_sound_witness :
  exists (b : loc) (w1 : World) (this' : Cook) (w2 : World),
    PizzaBuilder_ctor SpicyPizzaBuilder initial_world = Ok (b, w1)
    /\ makePizza {| m_pizzaBuilder := None |} b w1 = Ok (this', w2)
    /\ kitchen_ok w2.
Proof.
  destruct kitchen_stays_sound as (H0 & Hctor & Hmake & _).
  destruct (Hctor SpicyPizzaBuilder initial_world H0)
    as (b & w1 & Hrun1 & Hb & Hok1).
  destruct (Hmake {| m_pizzaBuilder := None |} b _ w1 Hok1 Hb)
    as (this' & w2 & Hrun2 & Hok2).
  exists b, w1, this', w2. split; [exact Hrun1|]. split; assumption.
Defined.

Lemma openPizza_only_prints_witness :
  exists w1 w2 : World,
    openPizza {| m_pizzaBuilder := Some 1%positive |} busy_kitchen
      = Ok (tt, w1)
    /\ openPizza {| m_pizzaBuilder := Some 1%positive |} w1 = Ok (tt, w2)
    /\ stdout w1 = "Pizza with  dough,  sauce and  topping. Mmm." +:+ endl.
Proof.
  destruct (openPizza_only_prints
              {| m_pizzaBuilder := Some 1%positive |} 1%positive 2%positive
              {| builder_class := HawaiianPizzaBuilder;
                 m_pizza := Some 2%positive |}
              blank busy_kitchen eq_refl eq_refl eq_refl eq_refl)
    as (w1 & w2 & Hrun1 & Hrun2 & _ & _ & Hout & _).
  exists w1, w2. split; [exact Hrun1|]. split; [exact Hrun2 | exact Hout].
Defined.

Lemma NewDocument_defined_iff_room_and_fit_witness :
  exists (this' : Application) (w' : World),
    NewDocument new_application "foo" initial_world = Ok (this', w').
Proof.
  apply (proj2 (NewDocument_defined_iff_room_and_fit
                  new_application "foo" initial_world eq_refl eq_refl)).
  split; simpl; lia.
Defined.

Lemma NewDocuments_only_add_documents_witness :
  exists (this' : Application) (w' : World),
    NewDocuments new_application ["foo"; "bar"] reading_room = Ok (this', w')
    /\ size (documents w') = 3%nat
    /\ documents reading_room ⊆ documents w'.
Proof.
  assert (exists r, NewDocuments new_application ["foo"; "bar"] reading_room
                    = Ok r) as [[this' w'] Hrun]
    by (eexists; vm_compute; reflexivity).
  destruct (NewDocuments_only_add_documents _ _ _ _ _ Hrun)
    as (Hsub & Hsize & _).
  exists this', w'. split; [exact Hrun|]. split; [exact Hsize | exact Hsub].
Defined.

Lemma ReportDocs_only_reads_witness :
  exists (this : Application) (w w1 w2 : World),
    fresh_application_run ["foo"; "bar"] initial_world = Ok (this, w)
    /\ ReportDocs this w = Ok (tt, w1)
    /\ ReportDocs this w1 = Ok (tt, w2)
    /\ same_objects w w1
    /\ stdout w1 = stdout w +:+ "Application: ReportDocs()" +:+ endl
                            +:+ report_lines ["foo"; "bar"].
Proof.
  destruct (fresh_application_run_registered ["foo"; "bar"] initial_world)
    as (this & w & Hrun & Hreg & _).
  - unfold DOCS_SIZE. simpl. lia.
  - repeat (apply Forall_cons; split;
            [split; [reflexivity | unfold NAME_SIZE; simpl; lia]|]).
    apply Forall_nil_2.
  - destruct (proj2 (ReportDocs_only_reads this) w ["foo"; "bar"] Hreg)
      as (w1 & w2 & Hrun1 & Hrun2 & _ & Hout & _).
    exists this, w, w1, w2. split; [exact Hrun|]. split; [exact Hrun1|].
    split; [exact Hrun2|].
    split; [exact (proj1 (ReportDocs_only_reads this) w w1 Hrun1)|].
    exact Hout.
Defined.

Lemma Open_and_Close_only_print_witness :
  (exists w', Close 1%positive reading_room = Ok (tt, w')
     /\ stdout w' = "   MyDocument: Close()" +:+ endl
     /\ documents w' = documents reading_room)
  /\ Close 2%positive reading_room = UB.
Proof.
  destruct (Open_and_Close_only_print 1%positive reading_room) as [Hlive _].
  destruct (Open_and_Close_only_print 2%positive reading_room) as [_ Hdead].
  split.
  - eexists. split; [apply Hlive; eexists; reflexivity|].
    split; reflexivity.
  - apply Hdead. reflexivity.
Defined.

Lemma Document_ctor_fills_name_witness :
  Document_ctor "foo" = Ok (cells_of "foo" ++ replicate 16 None).
Proof.
  destruct (Document_ctor_fills_name "foo" eq_refl) as [Hfit _].
  destruct Hfit as [Hrun _]; [simpl; lia|]. exact Hrun.
Defined.

Lemma draw_defined_iff_shape_witness :
  (exists w', draw 1%positive one_circle = Ok (tt, w')
     /\ stdout w' = "circle 0: draw" +:+ endl)
  /\ ~ (exists w', draw 2%positive one_circle = Ok (tt, w')).
Proof.
  split.
  - destruct (proj2 (proj1 (draw_defined_iff_shape 1%positive one_circle)))
      as [w' Hrun]; [eexists; reflexivity|].
    exists w'. split; [exact Hrun|].
    destruct (proj2 (draw_defined_iff_shape 1%positive one_circle) w' Hrun)
      as (_ & _ & s & Hs & Hout).
    injection Hs as <-. exact Hout.
  - intros Hdef.
    apply (proj1 (proj1 (draw_defined_iff_shape 2%positive one_circle)))
      in Hdef as [s Hs].
    discriminate.
Defined.

Lemma shape_ids_follow_the_counter_modulo_witness :
  exists (ps : list loc) (w' : World),
    new_Shapes [Ellipse; Rectangle] one_circle = Ok (ps, w')
    /\ id_of w' <$> ps = [Some 1; Some 2]
    /\ class_of w' <$> ps = [Some Ellipse; Some Rectangle].
Proof.
  destruct (shape_ids_follow_the_counter_modulo [Ellipse; Rectangle]
              one_circle)
    as (ps & w' & Hrun & Hlen & Hid & _).
  - unfold in_int, INT_MIN, INT_MAX. simpl. lia.
  - exists ps, w'. split; [exact Hrun|].
    destruct ps as [|p0 [|p1 [|? ?]]]; try discriminate.
    destruct (Hid 0%nat p0 eq_refl) as [Hi0 Hc0].
    destruct (Hid 1%nat p1 eq_refl) as [Hi1 Hc1].
    cbn [fmap list_fmap]. rewrite Hi0, Hc0, Hi1, Hc1. split; reflexivity.
Defined.

Lemma two_builders_sound : owned_live two_builders /\ sole_owner two_builders.
Proof.
  assert (forall b o a, builders two_builders !! b = Some o ->
            m_pizza o = Some a -> b = 1%positive /\ a = 3%positive) as Hown.
  { intros b o a Hb Hm. unfold two_builders in Hb. wsimpl in Hb.
    apply lookup_insert_Some in Hb as [[<- <-]|[_ Hb]].
    - injection Hm as <-. split; reflexivity.
    - apply lookup_singleton_Some in Hb as [_ <-]. discriminate. }
  split.
  - intros b o a Hb Hm. destruct (Hown b o a Hb Hm) as [_ ->].
    eexists. reflexivity.
  - intros b1 b2 o1 o2 a H1 H2 Hm1 Hm2.
    destruct (Hown b1 o1 a H1 Hm1) as [-> _].
    destruct (Hown b2 o2 a H2 Hm2) as [-> _]. reflexivity.
Qed.

Lemma makePizza_leaves_other_builders_witness :
  exists (this' : Cook) (w' : World),
    makePizza {| m_pizzaBuilder := None |} 2%positive two_builders
      = Ok (this', w')
    /\ pizzas w' !! 3%positive =
         Some {| m_dough := "cross"; m_sauce := "mild";
                 m_topping := "ham+pineapple" |}.
Proof.
  destruct (makePizza_leaves_other_builders
              {| m_pizzaBuilder := None |} 2%positive 1%positive
              {| builder_class := SpicyPizzaBuilder; m_pizza := None |}
              {| builder_class := HawaiianPizzaBuilder;
                 m_pizza := Some 3%positive |}
              two_builders (proj1 two_builders_sound)
              (proj2 two_builders_sound) eq_refl)
    as (this' & w' & Hrun & _ & Hkeep).
  - discriminate.
  - reflexivity.
  - exists this', w'. split; [exact Hrun|].
    exact (Hkeep 3%positive _ eq_refl eq_refl).
Defined.
